(** * Solar flare form: validation and mock prediction

    A shallow embedding of the three [SolarFlareForm] components of the
    repository (the classification variant, the validated probability variant
    and the unvalidated probability variant), together with the part of the
    JavaScript runtime they use: IEEE 754 binary64 numbers, [parseFloat],
    [String.prototype.trim], [Math.min], [Math.max], [Math.floor],
    [Math.round] and array indexing by a number.

    Numbers are [spec_float] values at precision 53 and exponent bound 1024,
    with the arithmetic of [SpecFloat] (round to nearest, ties to even).
    Strings are lists of UTF-16 code units. *)

From Stdlib Require Import ZArith NArith PArith QArith Lia List Bool.
From Stdlib Require Import String Ascii DecimalString Floats.SpecFloat.
Import ListNotations.

Local Open Scope Z_scope.

(* ================================================================= *)
(** ** JavaScript numbers *)

Module JS.

Definition prec : Z := 53.
Definition emax : Z := 1024.

Definition number := spec_float.

Definition NaN : number := S754_nan.
Definition Infinity : number := S754_infinity false.
Definition pos_zero : number := S754_zero false.
Definition neg_zero : number := S754_zero true.

Definition add : number -> number -> number := SFadd prec emax.
Definition mul : number -> number -> number := SFmul prec emax.
Definition div : number -> number -> number := SFdiv prec emax.
Definition ltb : number -> number -> bool := SFltb.
Definition leb : number -> number -> bool := SFleb.

(** The number denoted by an integer literal. *)
Definition of_Z (z : Z) : number := binary_normalize prec emax z 0 false.

(** The number nearest to [m * 10 ^ e] (ties to even), for the digits [m] of
    a decimal literal and its decimal exponent [e]: the Number value of the
    literal, with every digit significant.  A non-negative exponent gives an
    integer to round; a negative one a quotient of two integers, rounded as
    a division is. *)
Definition of_decimal (s : bool) (m : positive) (e : Z) : number :=
  match e with
  | Zneg p =>
      let '(q, e', l) :=
        SFdiv_core_binary prec emax (Zpos m) 0 (Z.pow 10 (Zpos p)) 0 in
      binary_round_aux prec emax s q e' l
  | _ => binary_round prec emax s (Z.to_pos (Zpos m * Z.pow 10 e)) 0
  end.

Definition isNaN (x : number) : bool :=
  match x with S754_nan => true | _ => false end.

(** [ToBoolean] of a number: zeros and NaN are falsy. *)
Definition truthy (x : number) : bool :=
  match x with
  | S754_nan | S754_zero _ => false
  | _ => true
  end.

(** [x || y] on numbers. *)
Definition or_else (x y : number) : number := if truthy x then x else y.

(** [Math.max] and [Math.min] of two arguments: NaN is contagious and
    [-0] is below [+0]. *)
Definition Math_max (x y : number) : number :=
  match SFcompare x y with
  | None => NaN
  | Some Lt => y
  | Some Gt => x
  | Some Eq => match x with S754_zero true => y | _ => x end
  end.

Definition Math_min (x y : number) : number :=
  match SFcompare x y with
  | None => NaN
  | Some Lt => x
  | Some Gt => y
  | Some Eq => match x with S754_zero false => y | _ => x end
  end.

(** The integer of sign [s] and magnitude [z], as a number; a zero
    magnitude keeps the sign. *)
Definition of_sign_mag (s : bool) (z : Z) : number :=
  binary_normalize prec emax (cond_Zopp s z) 0 s.

(** [Math.floor]: the greatest integer not above [x].  A finite number with
    a non-negative exponent is an integer already. *)
Definition Math_floor (x : number) : number :=
  match x with
  | S754_finite s m e =>
      match e with
      | Zneg k =>
          let q := Z.shiftr (Zpos m) (Zpos k) in
          let exact := Z.eqb (Z.shiftl q (Zpos k)) (Zpos m) in
          of_sign_mag s (if s then (if exact then q else q + 1) else q)
      | _ => x
      end
  | _ => x
  end.

(** [Math.round]: the integer nearest to [x], ties towards positive
    infinity; results in [[-0.5, 0)] are [-0]. *)
Definition Math_round (x : number) : number :=
  match x with
  | S754_finite s m e =>
      match e with
      | Zneg k =>
          (* twice the magnitude, in units of 2^-k *)
          let h := Z.shiftr (Zpos m) (Zpos k - 1) in
          let exact := Z.eqb (Z.shiftl h (Zpos k - 1)) (Zpos m) in
          let q := Z.div2 h in
          let odd := Z.odd h in
          (* the fractional part is at least one half iff [odd];
             it is exactly one half iff [odd && exact] *)
          of_sign_mag s
            (if s then (if odd && negb exact then q + 1 else q)
             else (if odd then q + 1 else q))
      | _ => x
      end
  | _ => x
  end.

(** The integer value of a number, when it has one ([-0] counts as 0). *)
Definition to_integer (x : number) : option Z :=
  match x with
  | S754_zero _ => Some 0
  | S754_finite s m e =>
      match e with
      | Zneg k =>
          let q := Z.shiftr (Zpos m) (Zpos k) in
          if Z.eqb (Z.shiftl q (Zpos k)) (Zpos m)
          then Some (cond_Zopp s q) else None
      | _ => Some (cond_Zopp s (Z.shiftl (Zpos m) e))
      end
  | _ => None
  end.

(** [arr[i]] for an array and a number: the element when [i] is a
    non-negative integer below the length, [undefined] otherwise. *)
Definition array_get {A : Type} (arr : list A) (i : number) : option A :=
  match to_integer i with
  | Some z => if Z.ltb z 0 then None else nth_error arr (Z.to_nat z)
  | None => None
  end.

End JS.

(* ================================================================= *)
(** ** JavaScript strings, [trim] and [parseFloat] *)

Module JSString.

(** A string is a sequence of UTF-16 code units. *)
Definition jsstring := list N.

(** The string written by an ASCII literal. *)
Definition str (s : string) : jsstring :=
  map N_of_ascii (list_ascii_of_string s).

(** WhiteSpace and LineTerminator code units: TAB, LF, VT, FF, CR, SP, NBSP,
    U+1680, U+2000 to U+200A, LS, PS, U+202F, U+205F, U+3000 and U+FEFF. *)
Definition isWhiteSpace (c : N) : bool :=
  (existsb (N.eqb c)
     [9; 10; 11; 12; 13; 32; 160; 5760; 8232; 8233; 8239; 8287; 12288; 65279]
   || (N.leb 8192 c && N.leb c 8202))%bool%N.

Fixpoint trimStart (s : jsstring) : jsstring :=
  match s with
  | c :: r => if isWhiteSpace c then trimStart r else s
  | [] => []
  end.

Definition trim (s : jsstring) : jsstring :=
  rev (trimStart (rev (trimStart s))).

(** [!s] for a string: only the empty string is falsy. *)
Definition is_empty (s : jsstring) : bool :=
  match s with [] => true | _ => false end.

Definition isDigit (c : N) : bool := (N.leb 48 c && N.leb c 57)%bool.

(** The longest run of decimal digits at the head of [s], as digit values,
    and what follows it. *)
Fixpoint span_digits (s : jsstring) : list N * jsstring :=
  match s with
  | c :: r =>
      if isDigit c
      then let '(ds, rest) := span_digits r in ((c - 48)%N :: ds, rest)
      else ([], s)
  | [] => ([], [])
  end.

Definition digits_value (ds : list N) : N :=
  fold_left (fun a d => (10 * a + d)%N) ds 0%N.

Fixpoint starts_with (p s : jsstring) : bool :=
  match p, s with
  | [], _ => true
  | a :: p', b :: s' => (N.eqb a b && starts_with p' s')%bool
  | _ :: _, [] => false
  end.

(** An optional sign: [true] for a minus. *)
Definition read_sign (s : jsstring) : bool * jsstring :=
  match s with
  | 43%N :: r => (false, r)
  | 45%N :: r => (true, r)
  | _ => (false, s)
  end.

(** ExponentPart, when one is present: [e] or [E], an optional sign and at
    least one digit.  Otherwise the exponent is 0 and nothing is consumed. *)
Definition read_exponent (s : jsstring) : Z :=
  match s with
  | c :: r =>
      if (N.eqb c 101 || N.eqb c 69)%bool then
        let '(neg, r') := read_sign r in
        match span_digits r' with
        | ([], _) => 0
        | (ds, _) => cond_Zopp neg (Z.of_N (digits_value ds))
        end
      else 0
  | [] => 0
  end.

(** [parseFloat]: leading white space is skipped and the longest prefix that
    is a StrDecimalLiteral is converted; NaN when there is none. *)
Definition parseFloat (s : jsstring) : JS.number :=
  let '(neg, t) := read_sign (trimStart s) in
  if starts_with (str "Infinity") t then S754_infinity neg
  else
    let '(ip, r1) := span_digits t in
    let '(fp, r2) :=
      match r1 with
      | 46%N :: r => span_digits r
      | _ => ([], r1)
      end in
    match ip, fp with
    | [], [] => JS.NaN
    | _, _ =>
        match digits_value (ip ++ fp) with
        | N0 => S754_zero neg
        | Npos m =>
            JS.of_decimal neg m (read_exponent r2 - Z.of_nat (List.length fp))
        end
    end.

End JSString.

(* ================================================================= *)
(** ** The form: parameters, field table and validation

    [SolarParameters], [parameterInfo], [sampleData] and [validateParameter]
    are the same text in the classification variant and in the validated
    probability variant. *)

Module Form.
Import JSString.

Inductive ParamKey :=
| kTOTUSJH | kTOTBSQ | kTOTPOT | kTOTUSJZ | kABSNJZH | kSAVNCPP | kUSFLUX
| kAREA_ACR | kTOTFZ | kMEANPOT | kR_VALUE | kEPSZ | kSHRGT45.

Record SolarParameters := {
  TOTUSJH : jsstring;
  TOTBSQ : jsstring;
  TOTPOT : jsstring;
  TOTUSJZ : jsstring;
  ABSNJZH : jsstring;
  SAVNCPP : jsstring;
  USFLUX : jsstring;
  AREA_ACR : jsstring;
  TOTFZ : jsstring;
  MEANPOT : jsstring;
  R_VALUE : jsstring;
  EPSZ : jsstring;
  SHRGT45 : jsstring
}.

(** [parameters[key]] *)
Definition get (p : SolarParameters) (key : ParamKey) : jsstring :=
  match key with
  | kTOTUSJH => TOTUSJH p
  | kTOTBSQ => TOTBSQ p
  | kTOTPOT => TOTPOT p
  | kTOTUSJZ => TOTUSJZ p
  | kABSNJZH => ABSNJZH p
  | kSAVNCPP => SAVNCPP p
  | kUSFLUX => USFLUX p
  | kAREA_ACR => AREA_ACR p
  | kTOTFZ => TOTFZ p
  | kMEANPOT => MEANPOT p
  | kR_VALUE => R_VALUE p
  | kEPSZ => EPSZ p
  | kSHRGT45 => SHRGT45 p
  end.

(** [{ ...prev, [key]: value }], the update of [handleInputChange]. *)
Definition set (prev : SolarParameters) (key : ParamKey) (value : jsstring)
  : SolarParameters :=
  let pick k := match key, k with
                | kTOTUSJH, kTOTUSJH | kTOTBSQ, kTOTBSQ | kTOTPOT, kTOTPOT
                | kTOTUSJZ, kTOTUSJZ | kABSNJZH, kABSNJZH | kSAVNCPP, kSAVNCPP
                | kUSFLUX, kUSFLUX | kAREA_ACR, kAREA_ACR | kTOTFZ, kTOTFZ
                | kMEANPOT, kMEANPOT | kR_VALUE, kR_VALUE | kEPSZ, kEPSZ
                | kSHRGT45, kSHRGT45 => value
                | _, _ => get prev k
                end in
  {| TOTUSJH := pick kTOTUSJH; TOTBSQ := pick kTOTBSQ; TOTPOT := pick kTOTPOT;
     TOTUSJZ := pick kTOTUSJZ; ABSNJZH := pick kABSNJZH;
     SAVNCPP := pick kSAVNCPP; USFLUX := pick kUSFLUX;
     AREA_ACR := pick kAREA_ACR; TOTFZ := pick kTOTFZ;
     MEANPOT := pick kMEANPOT; R_VALUE := pick kR_VALUE; EPSZ := pick kEPSZ;
     SHRGT45 := pick kSHRGT45 |}.

(** [Object.keys(parameters)]: the thirteen keys, in the order in which every
    parameters object of the components is written. *)
Definition Object_keys : list ParamKey :=
  [kTOTUSJH; kTOTBSQ; kTOTPOT; kTOTUSJZ; kABSNJZH; kSAVNCPP; kUSFLUX;
   kAREA_ACR; kTOTFZ; kMEANPOT; kR_VALUE; kEPSZ; kSHRGT45].

(** [Object.values(parameters)] *)
Definition Object_values (p : SolarParameters) : list jsstring :=
  map (get p) Object_keys.

(** The initial state of the form, also what [resetForm] installs. *)
Definition emptyParameters : SolarParameters :=
  {| TOTUSJH := []; TOTBSQ := []; TOTPOT := []; TOTUSJZ := [];
     ABSNJZH := []; SAVNCPP := []; USFLUX := []; AREA_ACR := [];
     TOTFZ := []; MEANPOT := []; R_VALUE := []; EPSZ := []; SHRGT45 := [] |}.

Definition sampleData : SolarParameters :=
  {| TOTUSJH := str "3500"; TOTBSQ := str "2500"; TOTPOT := str "45000";
     TOTUSJZ := str "2800"; ABSNJZH := str "420"; SAVNCPP := str "250";
     USFLUX := str "25000"; AREA_ACR := str "450"; TOTFZ := str "500";
     MEANPOT := str "850"; R_VALUE := str "3800"; EPSZ := str "50";
     SHRGT45 := str "0.35" |}.

(** The [min] and [max] of every row of [parameterInfo] are integer
    literals; they are kept as integers, [JS.of_Z] gives the number that is
    compared and the template literal prints them in decimal.  The degree
    sign of the last description is spelled out. *)
Record ParameterInfo := {
  description : string;
  min : Z;
  max : Z
}.

Definition parameterInfo (key : ParamKey) : ParameterInfo :=
  match key with
  | kTOTUSJH => {| description := "Total unsigned current helicity"; min := 0; max := 10000 |}
  | kTOTBSQ => {| description := "Total magnetic field squared"; min := 0; max := 5000 |}
  | kTOTPOT => {| description := "Total photospheric magnetic energy"; min := 0; max := 100000 |}
  | kTOTUSJZ => {| description := "Total unsigned vertical current"; min := 0; max := 5000 |}
  | kABSNJZH => {| description := "Absolute net current helicity"; min := 0; max := 1000 |}
  | kSAVNCPP => {| description := "Sum of absolute net currents"; min := 0; max := 500 |}
  | kUSFLUX => {| description := "Unsigned magnetic flux"; min := 0; max := 50000 |}
  | kAREA_ACR => {| description := "Active region area"; min := 0; max := 2000 |}
  | kTOTFZ => {| description := "Total Lorentz force (Z component)"; min := 0; max := 1000 |}
  | kMEANPOT => {| description := "Mean photospheric magnetic energy"; min := 0; max := 1000 |}
  | kR_VALUE => {| description := "Schrijver's R parameter"; min := 0; max := 5000 |}
  | kEPSZ => {| description := "Mean vertical current density"; min := 0; max := 100 |}
  | kSHRGT45 => {| description := "Fraction of shear angle > 45 degrees"; min := 0; max := 1 |}
  end.

Definition print_Z (z : Z) : string :=
  DecimalString.NilZero.string_of_int (Z.to_int z).

Definition rangeMessage (info : ParameterInfo) : string :=
  ("Value must be between " ++ print_Z (min info) ++ " and "
     ++ print_Z (max info))%string.

(** [validateParameter]: [None] is [null]. *)
Definition validateParameter (key : ParamKey) (value : jsstring)
  : option string :=
  if is_empty (trim value) then None
  else
    let numValue := parseFloat value in
    if JS.isNaN numValue then Some "Invalid number"%string
    else
      let info := parameterInfo key in
      if (JS.ltb numValue (JS.of_Z (min info))
          || JS.ltb (JS.of_Z (max info)) numValue)%bool
      then Some (rangeMessage info)
      else None.

(** The errors object, [Partial<Record<keyof SolarParameters, string>>], as
    its own properties in insertion order. *)
Definition Errors := list (ParamKey * string).

(** [if (error)] for [string | null]: [null] and the empty string are
    falsy. *)
Definition error_truthy (error : option string) : bool :=
  match error with
  | Some e => negb (String.eqb e EmptyString)
  | None => false
  end.

(** One turn of the [forEach] of [handleSubmit], on the pair
    [(newErrors, hasErrors)]. *)
Definition validate_step (p : SolarParameters) (acc : Errors * bool)
  (key : ParamKey) : Errors * bool :=
  let error := validateParameter key (get p key) in
  match error with
  | Some e => if error_truthy error then (fst acc ++ [(key, e)], true) else acc
  | None => acc
  end.

Definition validate_all (p : SolarParameters) : Errors * bool :=
  fold_left (validate_step p) Object_keys ([], false).

(** [values] and [avgValue] of [handleSubmit], the same text in the three
    variants. *)
Definition values (p : SolarParameters) : list JS.number :=
  map (fun v => JS.or_else (parseFloat v) (JS.of_Z 0)) (Object_values p).

Definition sumValues (vs : list JS.number) : JS.number :=
  fold_left (fun a b => JS.add a b) vs (JS.of_Z 0).

Definition avgValue (p : SolarParameters) : JS.number :=
  JS.div (sumValues (values p)) (JS.of_Z (Z.of_nat (List.length (values p)))).

End Form.

(* ================================================================= *)
(** ** The classification variant
    ([src/components/SolarFlareForm.tsx]) *)

Module Classification.
Import JSString Form.

Record PredictionResult := {
  binary_prediction : string;
  final_class : option string;   (* [None] is [undefined] *)
  confidence : JS.number
}.

Record State := {
  parameters : SolarParameters;
  errors : Errors;
  result : option PredictionResult;
  isLoading : bool
}.

(** The state of the first render. *)
Definition initialState : State :=
  {| parameters := emptyParameters; errors := []; result := None;
     isLoading := false |}.

Definition mockClasses : list string := ["B"; "C"; "M"; "X"; "B/C"]%string.

(** [finalClass === c] *)
Definition strict_eq (finalClass : option string) (c : string) : bool :=
  match finalClass with
  | Some f => String.eqb f c
  | None => false
  end.

(** The mock response, from [avgValue] on. *)
Definition mockResponse (avgValue : JS.number) : PredictionResult :=
  let classIndex :=
    JS.Math_min (JS.Math_floor (JS.div avgValue (JS.of_Z 2500))) (JS.of_Z 4) in
  let finalClass := JS.array_get mockClasses classIndex in
  let isMajorFlare :=
    (strict_eq finalClass "M" || strict_eq finalClass "X")%bool in
  let confidence :=
    JS.Math_min
      (JS.Math_max
         (JS.add (JS.of_decimal false 4 (-1)) (JS.div avgValue (JS.of_Z 20000)))
         (JS.of_decimal false 4 (-1)))
      (JS.of_decimal false 98 (-2)) in
  {| binary_prediction :=
       if isMajorFlare then "Major Flare"%string else "No Major Flare"%string;
     final_class := finalClass;
     confidence := confidence |}.

(** What [handleSubmit] does once its timer has fired: [captured] is the
    [parameters] of the render in which the form was submitted, [s] the
    state at that time. *)
Definition handleSubmit_resume (captured : SolarParameters) (s : State)
  : State :=
  {| parameters := parameters s;
     errors := errors s;
     result := Some (mockResponse (avgValue captured));
     isLoading := false |}.

(** [handleSubmit] up to its [return] or its [await]: the new state, and the
    captured parameters when a prediction is pending. *)
Definition handleSubmit_start (s : State) : State * option SolarParameters :=
  let '(newErrors, hasErrors) := validate_all (parameters s) in
  if hasErrors
  then ({| parameters := parameters s; errors := newErrors;
           result := result s; isLoading := isLoading s |}, None)
  else ({| parameters := parameters s; errors := errors s;
           result := result s; isLoading := true |}, Some (parameters s)).

(** A whole submission with no other event during the delay. *)
Definition handleSubmit (s : State) : State :=
  match handleSubmit_start s with
  | (s', Some captured) => handleSubmit_resume captured s'
  | (s', None) => s'
  end.

End Classification.

(* ================================================================= *)
(** ** The validated probability variant (first component of the second
    source file) *)

Inductive RiskLevel := low | medium | high.

Module Probability.
Import JSString Form.

Record PredictionResult := {
  probability : JS.number;
  riskLevel : RiskLevel;
  message : string
}.

Record State := {
  parameters : SolarParameters;
  errors : Errors;
  result : option PredictionResult;
  isLoading : bool
}.

Definition initialState : State :=
  {| parameters := emptyParameters; errors := []; result := None;
     isLoading := false |}.

(** The mock calculation, from [avgValue] on. *)
Definition mockResponse (avgValue : JS.number) : PredictionResult :=
  let probability :=
    JS.Math_min
      (JS.Math_max (JS.mul (JS.div avgValue (JS.of_Z 10000)) (JS.of_Z 100))
         (JS.of_Z 5))
      (JS.of_Z 95) in
  let probability :=
    JS.div (JS.Math_round (JS.mul probability (JS.of_Z 100))) (JS.of_Z 100) in
  if JS.ltb probability (JS.of_Z 30) then
    {| probability := probability; riskLevel := low;
       message := "Low probability of solar flare activity. Conditions appear stable." |}
  else if JS.ltb probability (JS.of_Z 60) then
    {| probability := probability; riskLevel := medium;
       message := "Moderate probability of solar flare activity. Continue monitoring." |}
  else
    {| probability := probability; riskLevel := high;
       message := "High probability of solar flare activity. Enhanced monitoring recommended." |}.

Definition handleSubmit_resume (captured : SolarParameters) (s : State)
  : State :=
  {| parameters := parameters s;
     errors := errors s;
     result := Some (mockResponse (avgValue captured));
     isLoading := false |}.

Definition handleSubmit_start (s : State) : State * option SolarParameters :=
  let '(newErrors, hasErrors) := validate_all (parameters s) in
  if hasErrors
  then ({| parameters := parameters s; errors := newErrors;
           result := result s; isLoading := isLoading s |}, None)
  else ({| parameters := parameters s; errors := errors s;
           result := result s; isLoading := true |}, Some (parameters s)).

Definition handleSubmit (s : State) : State :=
  match handleSubmit_start s with
  | (s', Some captured) => handleSubmit_resume captured s'
  | (s', None) => s'
  end.

End Probability.

(* ================================================================= *)
(** ** The unvalidated probability variant (second component of the second
    source file): no [errors] state and no [validateParameter] *)

Module Unvalidated.
Import JSString Form.

Record PredictionResult := {
  probability : JS.number;
  riskLevel : RiskLevel;
  message : string
}.

Record State := {
  parameters : SolarParameters;
  result : option PredictionResult;
  isLoading : bool
}.

Definition initialState : State :=
  {| parameters := emptyParameters; result := None; isLoading := false |}.

Definition sampleData : SolarParameters :=
  {| TOTUSJH := str "3500.5"; TOTBSQ := str "125000.0"; TOTPOT := str "8500.25";
     TOTUSJZ := str "28000.0"; ABSNJZH := str "4200.0"; SAVNCPP := str "15000.0";
     USFLUX := str "2.5e22"; AREA_ACR := str "450.0"; TOTFZ := str "1.2e22";
     MEANPOT := str "850.0"; R_VALUE := str "3.8e24"; EPSZ := str "0.015";
     SHRGT45 := str "0.35" |}.

Definition mockResponse (avgValue : JS.number) : PredictionResult :=
  let probability :=
    JS.Math_min
      (JS.Math_max (JS.mul (JS.div avgValue (JS.of_Z 10000)) (JS.of_Z 100))
         (JS.of_Z 5))
      (JS.of_Z 95) in
  let probability :=
    JS.div (JS.Math_round (JS.mul probability (JS.of_Z 100))) (JS.of_Z 100) in
  if JS.ltb probability (JS.of_Z 30) then
    {| probability := probability; riskLevel := low;
       message := "Low probability of solar flare activity. Conditions appear stable." |}
  else if JS.ltb probability (JS.of_Z 60) then
    {| probability := probability; riskLevel := medium;
       message := "Moderate probability of solar flare activity. Continue monitoring." |}
  else
    {| probability := probability; riskLevel := high;
       message := "High probability of solar flare activity. Enhanced monitoring recommended." |}.

Definition handleSubmit_resume (captured : SolarParameters) (s : State)
  : State :=
  {| parameters := parameters s;
     result := Some (mockResponse (avgValue captured));
     isLoading := false |}.

Definition handleSubmit_start (s : State) : State * option SolarParameters :=
  ({| parameters := parameters s; result := result s; isLoading := true |},
   Some (parameters s)).

Definition handleSubmit (s : State) : State :=
  match handleSubmit_start s with
  | (s', Some captured) => handleSubmit_resume captured s'
  | (s', None) => s'
  end.

End Unvalidated.

(* ================================================================= *)
(** ** Vocabulary of the properties *)

Module Spec.
Import JSString Form.

(** A string that is empty or only white space. *)
Definition blank (value : jsstring) : bool := forallb isWhiteSpace value.

(** The parsed number is strictly below the field's [min] or strictly above
    its [max]. *)
Definition out_of_range (key : ParamKey) (value : jsstring) : bool :=
  (JS.ltb (parseFloat value) (JS.of_Z (min (parameterInfo key)))
   || JS.ltb (JS.of_Z (max (parameterInfo key))) (parseFloat value))%bool.

(** Every field is accepted by [validateParameter]. *)
Definition accepted (p : SolarParameters) : Prop :=
  forall key, validateParameter key (get p key) = None.

(** The fields [validateParameter] rejects, each with its message, in key
    order. *)
Definition rejections (p : SolarParameters) : Errors :=
  flat_map
    (fun key =>
       match validateParameter key (get p key) with
       | Some e => [(key, e)]
       | None => []
       end)
    Object_keys.

(** [lo <= x <= hi], false when [x] is NaN. *)
Definition in_range (lo hi x : JS.number) : bool :=
  (JS.leb lo x && JS.leb x hi)%bool.

(** [v] clamped to [[lo, hi]]; NaN stays NaN. *)
Definition clamp (lo hi v : JS.number) : JS.number :=
  if JS.ltb v lo then lo else if JS.ltb hi v then hi else v.

(** [x] rounded to two decimal places, the way the components do it. *)
Definition round2 (x : JS.number) : JS.number :=
  JS.div (JS.Math_round (JS.mul x (JS.of_Z 100))) (JS.of_Z 100).

Definition risk_of (probability : JS.number) : RiskLevel :=
  if JS.ltb probability (JS.of_Z 30) then low
  else if JS.ltb probability (JS.of_Z 60) then medium
  else high.

Definition message_of (r : RiskLevel) : string :=
  match r with
  | low => "Low probability of solar flare activity. Conditions appear stable."
  | medium => "Moderate probability of solar flare activity. Continue monitoring."
  | high => "High probability of solar flare activity. Enhanced monitoring recommended."
  end.

(** Positive zero, a positive finite number or positive infinity. *)
Definition nonneg (x : JS.number) : bool :=
  match x with
  | S754_zero false => true
  | S754_finite false _ _ => true
  | S754_infinity false => true
  | _ => false
  end.


(** A positive finite number. *)
Definition pos_finite (x : JS.number) : bool :=
  match x with
  | S754_finite false _ _ => true
  | _ => false
  end.

(** The integer part of a finite number, [floor x]; 0 for the zeros. *)
Definition floor_Z (x : JS.number) : Z :=
  match x with
  | S754_finite s m e => Z.shiftl (cond_Zopp s (Zpos m)) e
  | _ => 0
  end.

(** [min(floor(average / 2500), 4)] as an integer, for an average that is
    not negative: the floor of positive infinity is above 4. *)
Definition class_index (average : JS.number) : Z :=
  match JS.div average (JS.of_Z 2500) with
  | S754_infinity false => 4
  | y => Z.min (floor_Z y) 4
  end.

(** The confidence formula of the classification variant. *)
Definition confidence_of (average : JS.number) : JS.number :=
  clamp (JS.of_decimal false 4 (-1)) (JS.of_decimal false 98 (-2))
    (JS.add (JS.of_decimal false 4 (-1)) (JS.div average (JS.of_Z 20000))).

(** [f] holds at [count] consecutive integers from [lo] on. *)
Fixpoint holds_from (f : Z -> bool) (lo : Z) (count : nat) : bool :=
  match count with
  | O => true
  | S k => f lo && holds_from f (lo + 1) k
  end.

(** The prediction a submission produces: the form is submitted in state
    [s] and the timer fires in state [t]; [None] when the submission is
    rejected and nothing is computed. *)
Definition prediction_C (s t : Classification.State)
  : option Classification.PredictionResult :=
  match snd (Classification.handleSubmit_start s) with
  | Some captured =>
      Classification.result (Classification.handleSubmit_resume captured t)
  | None => None
  end.



(** States holding given parameters, with a stale result and stale errors
    or none. *)
Definition state_C (p : SolarParameters) : Classification.State :=
  {| Classification.parameters := p; Classification.errors := [];
     Classification.result := None; Classification.isLoading := false |}.

Definition state_P (p : SolarParameters) : Probability.State :=
  {| Probability.parameters := p; Probability.errors := [];
     Probability.result := None; Probability.isLoading := false |}.

Definition state_U (p : SolarParameters) : Unvalidated.State :=
  {| Unvalidated.parameters := p; Unvalidated.result := None;
     Unvalidated.isLoading := false |}.

(** Sample inputs: a negative entry, and entries parsed as the two
    infinities. *)
Definition negative_entry : SolarParameters :=
  set emptyParameters kTOTUSJH (str "-5").


(** The real number a finite number stands for, as a rational. *)
Definition exact_value (x : JS.number) : Q :=
  match x with
  | S754_finite s m e =>
      match e with
      | Zneg k => Qmake (cond_Zopp s (Zpos m)) (2 ^ k)%positive
      | _ => Qmake (cond_Zopp s (Zpos m) * 2 ^ e) 1
      end
  | _ => 0%Q
  end.

(** The sum of finite numbers in exact arithmetic. *)
Definition exact_sum (vs : list JS.number) : Q :=
  fold_right Qplus 0%Q (map exact_value vs).

(** Two accepted assignments whose values have the same exact sum, 32500:
    one entry of 32500, against [32500 - 2^-38] followed by four entries of
    [2^-40], each of which is rounded away when it is added. *)
Definition one_entry : SolarParameters :=
  set emptyParameters kTOTPOT (str "32500").

Definition five_entries : SolarParameters :=
  set (set (set (set (set emptyParameters
    kTOTPOT (str "32499.99999999999636202119290828704833984375"))
    kTOTUSJZ (str "9.094947017729282379150390625e-13"))
    kABSNJZH (str "9.094947017729282379150390625e-13"))
    kSAVNCPP (str "9.094947017729282379150390625e-13"))
    kUSFLUX (str "9.094947017729282379150390625e-13").

End Spec.

(* ================================================================= *)
(** ** The event handlers of the validated components

    [handleInputChange], [fillSampleData], [resetForm] and [handleSubmit]
    are the same text in the classification variant and in the validated
    probability variant; they are embedded once, for any type of result and
    any mock response.  Here the errors object is what the handlers make of
    it: [handleInputChange] stores [undefined] under a key whose value is
    accepted. *)

Module Handlers.
Import JSString Form.

(** The name of a key, as the form labels the field. *)
Definition key_name (key : ParamKey) : string :=
  match key with
  | kTOTUSJH => "TOTUSJH"
  | kTOTBSQ => "TOTBSQ"
  | kTOTPOT => "TOTPOT"
  | kTOTUSJZ => "TOTUSJZ"
  | kABSNJZH => "ABSNJZH"
  | kSAVNCPP => "SAVNCPP"
  | kUSFLUX => "USFLUX"
  | kAREA_ACR => "AREA_ACR"
  | kTOTFZ => "TOTFZ"
  | kMEANPOT => "MEANPOT"
  | kR_VALUE => "R_VALUE"
  | kEPSZ => "EPSZ"
  | kSHRGT45 => "SHRGT45"
  end.

Definition key_eqb (a b : ParamKey) : bool :=
  String.eqb (key_name a) (key_name b).

(** An errors object: its own properties in insertion order, each holding a
    message or [undefined]. *)
Definition ErrorsObject := list (ParamKey * option string).

(** [errors[key]]: [None] is [undefined], for a missing property as for a
    property that holds [undefined]. *)
Fixpoint read (errors : ErrorsObject) (key : ParamKey) : option string :=
  match errors with
  | [] => None
  | (k, v) :: rest => if key_eqb k key then v else read rest key
  end.

(** [{ ...prev, [key]: v }]: an existing property keeps its place. *)
Fixpoint assign (prev : ErrorsObject) (key : ParamKey) (v : option string)
  : ErrorsObject :=
  match prev with
  | [] => [(key, v)]
  | (k, x) :: rest =>
      if key_eqb k key then (k, v) :: rest else (k, x) :: assign rest key v
  end.

(** The [newErrors] object of [handleSubmit], every property a message. *)
Definition of_messages (newErrors : Errors) : ErrorsObject :=
  map (fun ke => (fst ke, Some (snd ke))) newErrors.

(** [error || undefined] *)
Definition or_undefined (error : option string) : option string :=
  if error_truthy error then error else None.

Section Component.

Variable PredictionResult : Type.
Variable mockResponse : JS.number -> PredictionResult.

Record State := {
  parameters : SolarParameters;
  errors : ErrorsObject;
  result : option PredictionResult;
  isLoading : bool
}.

Definition initialState : State :=
  {| parameters := emptyParameters; errors := []; result := None;
     isLoading := false |}.

Definition handleInputChange (key : ParamKey) (value : jsstring) (s : State)
  : State :=
  let error := validateParameter key value in
  {| parameters := set (parameters s) key value;
     errors := assign (errors s) key (or_undefined error);
     result := result s;
     isLoading := isLoading s |}.

Definition fillSampleData (s : State) : State :=
  {| parameters := sampleData; errors := []; result := None;
     isLoading := isLoading s |}.

Definition resetForm (s : State) : State :=
  {| parameters := emptyParameters; errors := []; result := None;
     isLoading := isLoading s |}.

Definition handleSubmit_start (s : State) : State * option SolarParameters :=
  let '(newErrors, hasErrors) := validate_all (parameters s) in
  if hasErrors
  then ({| parameters := parameters s; errors := of_messages newErrors;
           result := result s; isLoading := isLoading s |}, None)
  else ({| parameters := parameters s; errors := errors s;
           result := result s; isLoading := true |}, Some (parameters s)).

Definition handleSubmit_resume (captured : SolarParameters) (s : State)
  : State :=
  {| parameters := parameters s;
     errors := errors s;
     result := Some (mockResponse (avgValue captured));
     isLoading := false |}.

(** [hasError], as the field list computes it: [!!errors[key]]. *)
Definition hasError (s : State) (key : ParamKey) : bool :=
  error_truthy (read (errors s) key).

(** What happens to the form.  The timer of a pending submission fires
    2000 ms after it was set. *)
Inductive Event :=
| InputChange (key : ParamKey) (value : jsstring)
| FillSampleData
| ResetForm
| Submit
| TimerFires.

(** The form and the submissions that wait for their timer, with the
    parameters each one captured, oldest first. *)
Record Session := {
  ui : State;
  pending : list SolarParameters
}.

Definition initialSession : Session :=
  {| ui := initialState; pending := [] |}.

(** One event.  The only submit button is [disabled={isLoading}], so the
    form cannot be submitted while a prediction is loading.  (The [required]
    attribute of the inputs restricts submission further; leaving it out
    only adds behaviours.) *)
Definition step (x : Session) (ev : Event) : Session :=
  match ev with
  | InputChange key value =>
      {| ui := handleInputChange key value (ui x); pending := pending x |}
  | FillSampleData => {| ui := fillSampleData (ui x); pending := pending x |}
  | ResetForm => {| ui := resetForm (ui x); pending := pending x |}
  | Submit =>
      if isLoading (ui x) then x
      else
        match handleSubmit_start (ui x) with
        | (s', Some captured) =>
            {| ui := s'; pending := pending x ++ [captured] |}
        | (s', None) => {| ui := s'; pending := pending x |}
        end
  | TimerFires =>
      match pending x with
      | captured :: rest =>
          {| ui := handleSubmit_resume captured (ui x); pending := rest |}
      | [] => x
      end
  end.

Definition run (x : Session) (events : list Event) : Session :=
  fold_left step events x.

End Component.

End Handlers.

(* ================================================================= *)
(** ** The event handlers of the unvalidated component *)

Module UnvalidatedHandlers.
Import JSString Form.

Definition handleInputChange (key : ParamKey) (value : jsstring)
  (s : Unvalidated.State) : Unvalidated.State :=
  {| Unvalidated.parameters := set (Unvalidated.parameters s) key value;
     Unvalidated.result := Unvalidated.result s;
     Unvalidated.isLoading := Unvalidated.isLoading s |}.

Definition fillSampleData (s : Unvalidated.State) : Unvalidated.State :=
  {| Unvalidated.parameters := Unvalidated.sampleData;
     Unvalidated.result := None;
     Unvalidated.isLoading := Unvalidated.isLoading s |}.

Definition resetForm (s : Unvalidated.State) : Unvalidated.State :=
  {| Unvalidated.parameters := emptyParameters;
     Unvalidated.result := None;
     Unvalidated.isLoading := Unvalidated.isLoading s |}.

Record Session := {
  ui : Unvalidated.State;
  pending : list SolarParameters
}.

Definition initialSession : Session :=
  {| ui := Unvalidated.initialState; pending := [] |}.

Definition step (x : Session) (ev : Handlers.Event) : Session :=
  match ev with
  | Handlers.InputChange key value =>
      {| ui := handleInputChange key value (ui x); pending := pending x |}
  | Handlers.FillSampleData =>
      {| ui := fillSampleData (ui x); pending := pending x |}
  | Handlers.ResetForm => {| ui := resetForm (ui x); pending := pending x |}
  | Handlers.Submit =>
      if Unvalidated.isLoading (ui x) then x
      else
        match Unvalidated.handleSubmit_start (ui x) with
        | (s', Some captured) =>
            {| ui := s'; pending := pending x ++ [captured] |}
        | (s', None) => {| ui := s'; pending := pending x |}
        end
  | Handlers.TimerFires =>
      match pending x with
      | captured :: rest =>
          {| ui := Unvalidated.handleSubmit_resume captured (ui x);
             pending := rest |}
      | [] => x
      end
  end.

Definition run (x : Session) (events : list Handlers.Event) : Session :=
  fold_left step events x.

End UnvalidatedHandlers.

(* ================================================================= *)
(** ** What the result cards compute from a result *)

Module Render.

(** The classification card: [Math.round(result.confidence * 100)], shown
    as the percentage and used as the width of the bar. *)
Definition confidencePercent (r : Classification.PredictionResult)
  : JS.number :=
  JS.Math_round (JS.mul (Classification.confidence r) (JS.of_Z 100)).

(** A string or [undefined] inside a template literal. *)
Definition interpolate (v : option string) : string :=
  match v with
  | Some t => t
  | None => "undefined"
  end.

(** [result.final_class === 'B/C' ? 'B / C Class'
      : `${result.final_class} Class`] *)
Definition finalClassLabel (r : Classification.PredictionResult) : string :=
  if Classification.strict_eq (Classification.final_class r) "B/C"
  then "B / C Class"%string
  else (interpolate (Classification.final_class r) ++ " Class")%string.

(** The card is red where [binary_prediction === 'Major Flare'] (border,
    first row, bar) and where [final_class] is ['M'] or ['X'] (second
    row). *)
Definition redByPrediction (r : Classification.PredictionResult) : bool :=
  String.eqb (Classification.binary_prediction r) "Major Flare".

Definition redByClass (r : Classification.PredictionResult) : bool :=
  (Classification.strict_eq (Classification.final_class r) "M"
   || Classification.strict_eq (Classification.final_class r) "X")%bool.

(** The probability gauge: the dash of the progress circle,
    [result.probability * 2.83], on a circle of circumference 283. *)
Definition strokeDash (probability : JS.number) : JS.number :=
  JS.mul probability (JS.of_decimal false 283 (-2)).

End Render.

(* ================================================================= *)
(** ** Vocabulary of the properties of a session *)

Module Watch.
Import JSString Form Spec.

(** The parameters an event leaves in the form. *)
Definition edited (p : SolarParameters) (ev : Handlers.Event)
  : SolarParameters :=
  match ev with
  | Handlers.InputChange key value => set p key value
  | Handlers.FillSampleData => sampleData
  | Handlers.ResetForm => emptyParameters
  | Handlers.Submit | Handlers.TimerFires => p
  end.

Definition is_timer (ev : Handlers.Event) : bool :=
  match ev with
  | Handlers.TimerFires => true
  | _ => false
  end.

Section Component.

Variable PredictionResult : Type.
Variable mockResponse : JS.number -> PredictionResult.

(** Under every field the form shows what [validateParameter] says of the
    field's content. *)
Definition in_sync (s : Handlers.State PredictionResult) : Prop :=
  forall key,
    Handlers.read (Handlers.errors _ s) key
    = validateParameter key (get (Handlers.parameters _ s) key).

(** The form is loading exactly while one submission waits for its timer,
    and no second one ever waits. *)
Definition one_pending_when_loading (x : Handlers.Session PredictionResult)
  : Prop :=
  (Handlers.pending _ x = [] /\ Handlers.isLoading _ (Handlers.ui _ x) = false)
  \/ (exists captured,
         Handlers.pending _ x = [captured]
         /\ Handlers.isLoading _ (Handlers.ui _ x) = true).

(** The result on display and the submissions that wait were computed, or
    will be, from parameters that passed validation. *)
Definition from_accepted (x : Handlers.Session PredictionResult) : Prop :=
  Forall accepted (Handlers.pending _ x)
  /\ forall r,
      Handlers.result _ (Handlers.ui _ x) = Some r ->
      exists p, accepted p /\ r = mockResponse (avgValue p).

End Component.

(** The same for the unvalidated component. *)
Definition one_pending_when_loading_U (x : UnvalidatedHandlers.Session)
  : Prop :=
  (UnvalidatedHandlers.pending x = []
   /\ Unvalidated.isLoading (UnvalidatedHandlers.ui x) = false)
  \/ (exists captured,
         UnvalidatedHandlers.pending x = [captured]
         /\ Unvalidated.isLoading (UnvalidatedHandlers.ui x) = true).

(** The parameters an event leaves in the unvalidated form, which has
    sample data of its own. *)
Definition edited_U (p : SolarParameters) (ev : Handlers.Event)
  : SolarParameters :=
  match ev with
  | Handlers.InputChange key value => set p key value
  | Handlers.FillSampleData => Unvalidated.sampleData
  | Handlers.ResetForm => emptyParameters
  | Handlers.Submit | Handlers.TimerFires => p
  end.

End Watch.

(* ================================================================= *)
(** ** The embedding at work *)

Section Examples.
Import JSString Form Spec.

Example parseFloat_decimal :
  parseFloat (str "0.35") = S754_finite false 6305039478318694 (-54).
Proof. vm_compute. reflexivity. Qed.

Example parseFloat_prefix :
  parseFloat (str "  -12.5e2xyz") = JS.of_Z (-1250).
Proof. vm_compute. reflexivity. Qed.

Example parseFloat_overflow : parseFloat (str "1e999") = JS.Infinity.
Proof. vm_compute. reflexivity. Qed.

Example parseFloat_not_a_number :
  parseFloat (str "abc") = JS.NaN /\ parseFloat (str ".") = JS.NaN
  /\ parseFloat (str "- 1") = JS.NaN.
Proof. repeat split. Qed.

Example Math_round_ties :
  JS.Math_round (JS.of_decimal false 25 (-1)) = JS.of_Z 3
  /\ JS.Math_round (JS.of_decimal true 25 (-1)) = JS.of_Z (-2)
  /\ JS.Math_round (JS.of_decimal true 4 (-1)) = JS.neg_zero
  /\ JS.Math_round (JS.of_decimal false 4 (-1)) = JS.pos_zero.
Proof. repeat split. Qed.

Example Math_floor_negative :
  JS.Math_floor (JS.of_decimal true 5 (-1)) = JS.of_Z (-1)
  /\ JS.Math_floor (JS.of_decimal false 29 (-1)) = JS.of_Z 2.
Proof. repeat split. Qed.

Example Math_max_NaN : JS.Math_max JS.NaN (JS.of_Z 5) = JS.NaN.
Proof. reflexivity. Qed.

Example array_get_bounds :
  JS.array_get Classification.mockClasses (JS.of_Z 4) = Some "B/C"%string
  /\ JS.array_get Classification.mockClasses (JS.of_Z 5) = None
  /\ JS.array_get Classification.mockClasses (JS.of_Z (-1)) = None
  /\ JS.array_get Classification.mockClasses JS.NaN = None.
Proof. repeat split. Qed.

(** The sample data: an average of about 6547.72. *)
Example sampleData_classification :
  Classification.result (Classification.handleSubmit (state_C sampleData))
  = Some {| Classification.binary_prediction := "Major Flare";
            Classification.final_class := Some "M"%string;
            Classification.confidence :=
              S754_finite false 6551710290678291 (-53) |}.
Proof. vm_compute. reflexivity. Qed.

Example sampleData_probability :
  Probability.result (Probability.handleSubmit (state_P sampleData))
  = Some {| Probability.probability := JS.of_decimal false 6548 (-2);
            Probability.riskLevel := high;
            Probability.message := message_of high |}.
Proof. vm_compute. reflexivity. Qed.

End Examples.

(* ================================================================= *)
(** ** Comparison *)

Section Compare.

Lemma SFcompare_antisym (x y : spec_float) :
  SFcompare y x = option_map CompOpp (SFcompare x y).
Proof.
  destruct x as [sx|sx| |sx mx ex], y as [sy|sy| |sy my ey]; simpl;
    try reflexivity;
    try (destruct sx; reflexivity);
    try (destruct sy; reflexivity);
    try (destruct sx, sy; reflexivity).
  destruct sx, sy; simpl; try reflexivity;
    rewrite (Z.compare_antisym ex ey);
    destruct (ex ?= ey); simpl; try reflexivity;
    rewrite (Pos.compare_cont_antisym mx my Eq); simpl;
    try rewrite CompOpp_involutive; reflexivity.
Qed.

Lemma SFltb_leb_flip (x y : spec_float) :
  SFcompare x y <> None -> SFleb y x = negb (SFltb x y).
Proof.
  unfold SFleb, SFltb. rewrite (SFcompare_antisym x y).
  destruct (SFcompare x y) as [[| |]|]; simpl; congruence.
Qed.

Lemma SFltb_true_not_NaN (x y : spec_float) :
  SFltb x y = true -> JS.isNaN x = false /\ JS.isNaN y = false.
Proof.
  unfold SFltb. destruct x, y; simpl; try discriminate; auto.
Qed.

Lemma SFcompare_None (x y : spec_float) :
  SFcompare x y = None <-> JS.isNaN x = true \/ JS.isNaN y = true.
Proof.
  destruct x as [sx|sx| |sx mx ex], y as [sy|sy| |sy my ey]; simpl;
    split; intros H; try discriminate; auto;
    try (destruct H; discriminate).
Qed.

End Compare.

(* ================================================================= *)
(** ** Validation *)

Section Validation.
Import JSString Form Spec.

Lemma trimStart_nil (s : jsstring) :
  trimStart s = [] <-> forallb isWhiteSpace s = true.
Proof.
  induction s as [|c r IH]; simpl.
  - tauto.
  - destruct (isWhiteSpace c); simpl.
    + exact IH.
    + split; discriminate.
Qed.

Lemma trimStart_head (s : jsstring) c r :
  trimStart s = c :: r -> isWhiteSpace c = false.
Proof.
  induction s as [|a s' IH]; simpl; [discriminate|].
  destruct (isWhiteSpace a) eqn:Ha; [exact IH|].
  intros E; injection E as <- _; exact Ha.
Qed.

Lemma forallb_rev {A} (f : A -> bool) (l : list A) :
  forallb f (rev l) = forallb f l.
Proof.
  induction l as [|a l IH]; simpl; [reflexivity|].
  rewrite forallb_app, IH; simpl.
  rewrite andb_true_r. apply andb_comm.
Qed.

Lemma is_empty_trim (s : jsstring) : is_empty (trim s) = blank s.
Proof.
  unfold trim, blank.
  destruct (forallb isWhiteSpace s) eqn:Hs.
  - apply trimStart_nil in Hs. rewrite Hs. reflexivity.
  - destruct (trimStart s) as [|c r] eqn:Ht.
    + apply trimStart_nil in Ht. congruence.
    + pose proof (trimStart_head _ _ _ Ht) as Hc.
      destruct (trimStart (rev (c :: r))) as [|d q] eqn:Hq.
      * apply trimStart_nil in Hq. rewrite forallb_rev in Hq.
        simpl in Hq. rewrite Hc in Hq. discriminate.
      * simpl. destruct (rev q ++ [d]) eqn:Hr; [|reflexivity].
        destruct (rev q); discriminate.
Qed.

Lemma parseFloat_blank (s : jsstring) :
  blank s = true -> parseFloat s = JS.NaN.
Proof.
  intros H. apply trimStart_nil in H.
  unfold parseFloat. rewrite H. reflexivity.
Qed.

Lemma out_of_range_not_NaN key value :
  out_of_range key value = true -> JS.isNaN (parseFloat value) = false.
Proof.
  unfold out_of_range, JS.ltb. intros H.
  apply orb_true_iff in H as [H|H]; apply SFltb_true_not_NaN in H; tauto.
Qed.

Lemma rangeMessage_not_invalid info :
  rangeMessage info <> "Invalid number"%string.
Proof. unfold rangeMessage; simpl; discriminate. Qed.

Lemma validateParameter_unfold key value :
  validateParameter key value =
  if blank value then None
  else if JS.isNaN (parseFloat value) then Some "Invalid number"%string
  else if out_of_range key value then Some (rangeMessage (parameterInfo key))
  else None.
Proof.
  unfold validateParameter. rewrite is_empty_trim. reflexivity.
Qed.

Lemma validateParameter_truthy key value e :
  validateParameter key value = Some e -> error_truthy (Some e) = true.
Proof.
  rewrite validateParameter_unfold.
  destruct (blank value); [discriminate|].
  destruct (JS.isNaN (parseFloat value)).
  - intros E; injection E as <-; reflexivity.
  - destruct (out_of_range key value); [|discriminate].
    intros E; injection E as <-; reflexivity.
Qed.

Lemma validate_step_unfold p acc key :
  validate_step p acc key =
  match validateParameter key (get p key) with
  | Some e => (fst acc ++ [(key, e)], true)
  | None => acc
  end.
Proof.
  unfold validate_step.
  destruct (validateParameter key (get p key)) as [e|] eqn:E; [|reflexivity].
  rewrite (validateParameter_truthy _ _ _ E). reflexivity.
Qed.

Lemma validate_fold p (keys : list ParamKey) : forall acc,
  fold_left (validate_step p) keys acc =
  (fst acc ++ flat_map
     (fun key => match validateParameter key (get p key) with
                 | Some e => [(key, e)]
                 | None => []
                 end) keys,
   (snd acc || existsb
      (fun key => match validateParameter key (get p key) with
                  | Some _ => true
                  | None => false
                  end) keys)%bool).
Proof.
  induction keys as [|k ks IH]; intros [errs has]; simpl.
  - rewrite app_nil_r, orb_false_r. reflexivity.
  - rewrite IH, validate_step_unfold.
    destruct (validateParameter k (get p k)) as [e|]; simpl.
    + rewrite <- app_assoc, orb_true_r. reflexivity.
    + reflexivity.
Qed.

Lemma all_keys (key : ParamKey) : In key Object_keys.
Proof. destruct key; simpl; tauto. Qed.

Lemma validate_all_errors p : fst (validate_all p) = rejections p.
Proof. unfold validate_all. rewrite validate_fold. reflexivity. Qed.

Lemma validate_all_accepted p :
  snd (validate_all p) = false <-> accepted p.
Proof.
  unfold validate_all. rewrite validate_fold. cbv [snd orb].
  split.
  - intros H key.
    destruct (validateParameter key (get p key)) eqn:E; [|reflexivity].
    exfalso.
    assert (existsb
      (fun key => match validateParameter key (get p key) with
                  | Some _ => true
                  | None => false
                  end) Object_keys = true) as C.
    { apply existsb_exists. exists key. split; [apply all_keys|].
      rewrite E. reflexivity. }
    congruence.
  - intros H.
    destruct (existsb _ Object_keys) eqn:E; [|reflexivity].
    apply existsb_exists in E as (key & _ & Hk).
    rewrite (H key) in Hk. discriminate.
Qed.

Lemma validate_all_rejected p key :
  validateParameter key (get p key) <> None ->
  snd (validate_all p) = true.
Proof.
  intros H. destruct (snd (validate_all p)) eqn:E; [reflexivity|].
  apply validate_all_accepted in E. elim H. apply E.
Qed.

End Validation.

(* ================================================================= *)
(** ** Claims about validation and control flow *)

Section ValidationClaims.
Import JSString Form Spec.

(** C4. For every field and every input string, [validateParameter] returns
    [null] when the string is empty or only white space; returns
    ['Invalid number'] when the non-blank string does not parse to a number;
    returns the range message exactly when the parsed number is strictly
    below the field's [min] or strictly above its [max]; and returns [null]
    otherwise. *)
Theorem C4_validateParameter_cases (key : ParamKey) (value : jsstring) :
  (blank value = true -> validateParameter key value = None)
  /\ (blank value = false -> JS.isNaN (parseFloat value) = true ->
      validateParameter key value = Some "Invalid number"%string)
  /\ (validateParameter key value = Some (rangeMessage (parameterInfo key))
      <-> out_of_range key value = true)
  /\ (blank value = false -> JS.isNaN (parseFloat value) = false ->
      out_of_range key value = false -> validateParameter key value = None).
Proof.
  rewrite validateParameter_unfold.
  repeat split.
  - intros ->. reflexivity.
  - intros -> ->. reflexivity.
  - destruct (blank value); [discriminate|].
    destruct (JS.isNaN (parseFloat value)).
    + intros E. exfalso. apply (rangeMessage_not_invalid (parameterInfo key)).
      congruence.
    + destruct (out_of_range key value); [reflexivity|discriminate].
  - intros H. pose proof (out_of_range_not_NaN _ _ H) as Hn.
    destruct (blank value) eqn:Hb.
    + rewrite (parseFloat_blank _ Hb) in Hn. discriminate.
    + rewrite Hn, H. reflexivity.
  - intros -> -> ->. reflexivity.
Qed.

Lemma C4_validateParameter_cases_witness :
  validateParameter kEPSZ (str "   ") = None
  /\ validateParameter kEPSZ (str "abc") = Some "Invalid number"%string
  /\ validateParameter kEPSZ (str "100.5")
     = Some "Value must be between 0 and 100"%string
  /\ validateParameter kEPSZ (str "-1")
     = Some "Value must be between 0 and 100"%string
  /\ validateParameter kEPSZ (str "100") = None.
Proof.
  pose proof (C4_validateParameter_cases kEPSZ (str "   ")) as (H1 & _).
  pose proof (C4_validateParameter_cases kEPSZ (str "abc")) as (_ & H2 & _).
  pose proof (C4_validateParameter_cases kEPSZ (str "100.5")) as (_ & _ & H3 & _).
  pose proof (C4_validateParameter_cases kEPSZ (str "-1")) as (_ & _ & H4 & _).
  pose proof (C4_validateParameter_cases kEPSZ (str "100")) as (_ & _ & _ & H5).
  refine (conj _ (conj _ (conj _ (conj _ _)))).
  - apply H1. reflexivity.
  - apply H2; reflexivity.
  - apply H3. vm_compute. reflexivity.
  - apply H4. vm_compute. reflexivity.
  - apply H5; vm_compute; reflexivity.
Defined.

(** C5, as amended.  In the two variants that define [validateParameter]
    (the classification variant and the validated probability variant),
    every field is validated before a prediction is computed: when
    [validateParameter] rejects a field, [handleSubmit] stores the messages
    of the rejected fields as the errors and returns with no prediction
    pending, the result, the parameters and the loading flag being what they
    were; and a prediction is pending only when every field was accepted. *)
Theorem C5_rejected_submission_computes_nothing
  (p : SolarParameters) (key : ParamKey)
  (Hrej : validateParameter key (get p key) <> None) :
  (forall s : Classification.State,
      Classification.parameters s = p ->
      Classification.handleSubmit s
      = {| Classification.parameters := p;
           Classification.errors := rejections p;
           Classification.result := Classification.result s;
           Classification.isLoading := Classification.isLoading s |}
      /\ snd (Classification.handleSubmit_start s) = None)
  /\ (forall s : Probability.State,
      Probability.parameters s = p ->
      Probability.handleSubmit s
      = {| Probability.parameters := p;
           Probability.errors := rejections p;
           Probability.result := Probability.result s;
           Probability.isLoading := Probability.isLoading s |}
      /\ snd (Probability.handleSubmit_start s) = None)
  /\ In key (map fst (rejections p))
  /\ (forall (s : Classification.State) captured,
      snd (Classification.handleSubmit_start s) = Some captured ->
      accepted (Classification.parameters s))
  /\ (forall (s : Probability.State) captured,
      snd (Probability.handleSubmit_start s) = Some captured ->
      accepted (Probability.parameters s)).
Proof.
  pose proof (validate_all_rejected p key Hrej) as Hhas.
  pose proof (validate_all_errors p) as Herr.
  refine (conj _ (conj _ (conj _ (conj _ _)))).
  - intros s <-.
    unfold Classification.handleSubmit, Classification.handleSubmit_start.
    destruct (validate_all (Classification.parameters s)) as [errs has].
    simpl in Hhas, Herr. subst has errs. split; reflexivity.
  - intros s <-.
    unfold Probability.handleSubmit, Probability.handleSubmit_start.
    destruct (validate_all (Probability.parameters s)) as [errs has].
    simpl in Hhas, Herr. subst has errs. split; reflexivity.
  - unfold rejections. rewrite flat_map_concat_map, concat_map, map_map.
    apply in_concat.
    exists [key]. split; [|left; reflexivity].
    apply in_map_iff. exists key. split; [|apply all_keys].
    destruct (validateParameter key (get p key)); [reflexivity|congruence].
  - intros s captured.
    unfold Classification.handleSubmit_start.
    destruct (validate_all (Classification.parameters s)) as [errs has] eqn:E.
    destruct has; simpl; [discriminate|]. intros _.
    apply validate_all_accepted. rewrite E. reflexivity.
  - intros s captured.
    unfold Probability.handleSubmit_start.
    destruct (validate_all (Probability.parameters s)) as [errs has] eqn:E.
    destruct has; simpl; [discriminate|]. intros _.
    apply validate_all_accepted. rewrite E. reflexivity.
Qed.

Lemma C5_rejected_submission_witness :
  Classification.handleSubmit (state_C negative_entry)
  = {| Classification.parameters := negative_entry;
       Classification.errors :=
         [(kTOTUSJH, "Value must be between 0 and 10000"%string)];
       Classification.result := None;
       Classification.isLoading := false |}.
Proof.
  assert (validateParameter kTOTUSJH (get negative_entry kTOTUSJH) <> None)
    as H by (vm_compute; discriminate).
  exact (proj1 (proj1 (C5_rejected_submission_computes_nothing
                         negative_entry kTOTUSJH H)
                  (state_C negative_entry) eq_refl)).
Defined.

(** C5, as stated, fails in the unvalidated probability variant: an entry
    that [validateParameter] rejects is submitted and a prediction is
    computed all the same. *)
Lemma C5_unvalidated_variant_computes_anyway :
  validateParameter kTOTUSJH (get negative_entry kTOTUSJH)
  = Some "Value must be between 0 and 10000"%string
  /\ Unvalidated.result (Unvalidated.handleSubmit (state_U negative_entry))
     = Some {| Unvalidated.probability := JS.of_Z 5;
               Unvalidated.riskLevel := low;
               Unvalidated.message := message_of low |}
  /\ Unvalidated.result (Unvalidated.handleSubmit (state_U negative_entry))
     <> Unvalidated.result (state_U negative_entry).
Proof.
  refine (conj _ (conj _ _)).
  - vm_compute. reflexivity.
  - vm_compute. reflexivity.
  - vm_compute. discriminate.
Qed.



End ValidationClaims.

(* ================================================================= *)
(** ** Clamping and the risk level *)

Section Clamp.
Import Spec.

Lemma SFcompare_Eq_finite (x : spec_float) s m e :
  SFcompare x (S754_finite s m e) = Some Eq -> x = S754_finite s m e.
Proof.
  destruct x as [sx|sx| |sx mx ex]; simpl; try discriminate.
  - destruct s; discriminate.
  - destruct sx; discriminate.
  - destruct sx, s; try discriminate;
      destruct (Z.compare_spec ex e) as [->| |]; try discriminate;
      intros H; injection H as H.
    + apply (f_equal CompOpp) in H. rewrite CompOpp_involutive in H.
      simpl in H. apply Pos.compare_eq in H. subst; reflexivity.
    + apply Pos.compare_eq in H. subst; reflexivity.
Qed.

Lemma Math_min_max_clamp (lo hi v : JS.number) ml el mh eh :
  lo = S754_finite false ml el ->
  hi = S754_finite false mh eh ->
  SFcompare lo hi = Some Lt ->
  JS.Math_min (JS.Math_max v lo) hi = clamp lo hi v.
Proof.
  intros Hlo Hhi Hlt.
  unfold JS.Math_min, JS.Math_max, clamp, JS.ltb, SFltb.
  rewrite (SFcompare_antisym v hi).
  destruct (SFcompare v lo) as [[| |]|] eqn:E1.
  - rewrite Hlo in E1. apply SFcompare_Eq_finite in E1. rewrite <- Hlo in E1.
    subst v. rewrite Hlt. simpl. rewrite Hlo at 1. rewrite Hlt.
    rewrite Hlo. reflexivity.
  - rewrite Hlt. reflexivity.
  - destruct (SFcompare v hi) as [[| |]|] eqn:E2; simpl; try reflexivity.
    + rewrite Hhi in E2. apply SFcompare_Eq_finite in E2. subst v.
      reflexivity.
    + apply SFcompare_None in E2 as [E2|E2].
      * destruct v; discriminate.
      * rewrite Hhi in E2. discriminate.
  - apply SFcompare_None in E1 as [E1|E1].
    + destruct v; try discriminate. reflexivity.
    + rewrite Hlo in E1. discriminate.
Qed.

Lemma clamp_5_95 (v : JS.number) :
  JS.Math_min (JS.Math_max v (JS.of_Z 5)) (JS.of_Z 95)
  = clamp (JS.of_Z 5) (JS.of_Z 95) v.
Proof.
  eapply Math_min_max_clamp; vm_compute; reflexivity.
Qed.




Lemma Probability_mockResponse_unfold (avg : JS.number) :
  let prob :=
    round2 (clamp (JS.of_Z 5) (JS.of_Z 95)
              (JS.mul (JS.div avg (JS.of_Z 10000)) (JS.of_Z 100))) in
  Probability.mockResponse avg
  = {| Probability.probability := prob;
       Probability.riskLevel := risk_of prob;
       Probability.message := message_of (risk_of prob) |}.
Proof.
  intros prob. unfold Probability.mockResponse.
  rewrite clamp_5_95. fold (round2 (clamp (JS.of_Z 5) (JS.of_Z 95)
              (JS.mul (JS.div avg (JS.of_Z 10000)) (JS.of_Z 100)))).
  fold prob. unfold risk_of.
  destruct (JS.ltb prob (JS.of_Z 30)); [reflexivity|].
  destruct (JS.ltb prob (JS.of_Z 60)); reflexivity.
Qed.

Lemma Unvalidated_mockResponse_unfold (avg : JS.number) :
  let prob :=
    round2 (clamp (JS.of_Z 5) (JS.of_Z 95)
              (JS.mul (JS.div avg (JS.of_Z 10000)) (JS.of_Z 100))) in
  Unvalidated.mockResponse avg
  = {| Unvalidated.probability := prob;
       Unvalidated.riskLevel := risk_of prob;
       Unvalidated.message := message_of (risk_of prob) |}.
Proof.
  intros prob. unfold Unvalidated.mockResponse.
  rewrite clamp_5_95. fold (round2 (clamp (JS.of_Z 5) (JS.of_Z 95)
              (JS.mul (JS.div avg (JS.of_Z 10000)) (JS.of_Z 100)))).
  fold prob. unfold risk_of.
  destruct (JS.ltb prob (JS.of_Z 30)); [reflexivity|].
  destruct (JS.ltb prob (JS.of_Z 60)); reflexivity.
Qed.

End Clamp.

(* ================================================================= *)
(** ** Submissions that are accepted *)

Section Accepted.
Import JSString Form Spec.

Lemma avgValue_unfold (p : SolarParameters) :
  avgValue p = JS.div (sumValues (values p)) (JS.of_Z 13).
Proof. reflexivity. Qed.

Lemma prediction_C_accepted (s t : Classification.State) :
  accepted (Classification.parameters s) ->
  prediction_C s t
  = Some (Classification.mockResponse (avgValue (Classification.parameters s))).
Proof.
  intros H. apply validate_all_accepted in H.
  unfold prediction_C, Classification.handleSubmit_start.
  destruct (validate_all (Classification.parameters s)) as [errs has].
  simpl in H. subst has. reflexivity.
Qed.






Lemma accepted_sampleData : accepted sampleData.
Proof. apply validate_all_accepted. vm_compute. reflexivity. Qed.

Lemma accepted_emptyParameters : accepted emptyParameters.
Proof. apply validate_all_accepted. vm_compute. reflexivity. Qed.

End Accepted.

(* ================================================================= *)
(** ** Claims about the prediction formulas *)

Section FormulaClaims.
Import JSString Form Spec.



(** C7. The two probability variants compute equal predictions: for every
    assignment, the (probability, riskLevel, message) triples of the
    validated variant's formula and of the unvalidated variant's formula are
    equal. *)
Theorem C7_probability_variants_agree (p : SolarParameters) :
  let r1 := Probability.mockResponse (avgValue p) in
  let r2 := Unvalidated.mockResponse (avgValue p) in
  (Probability.probability r1, Probability.riskLevel r1, Probability.message r1)
  = (Unvalidated.probability r2, Unvalidated.riskLevel r2,
     Unvalidated.message r2).
Proof.
  intros r1 r2. subst r1 r2.
  rewrite Probability_mockResponse_unfold, Unvalidated_mockResponse_unfold.
  cbv zeta.
  cbn [Probability.probability Probability.riskLevel Probability.message
       Unvalidated.probability Unvalidated.riskLevel Unvalidated.message].
  reflexivity.
Qed.



End FormulaClaims.

(* ================================================================= *)
(** ** Rounding to binary64: shape and validity of the results *)

Section Rounding.

Local Abbreviation fexp := (SpecFloat.fexp JS.prec JS.emax).

Lemma fexp_unfold (x : Z) : fexp x = Z.max (x - 53) (-1074).
Proof. reflexivity. Qed.

Lemma fexp_monotone (x y : Z) : x <= y -> fexp x <= fexp y.
Proof. rewrite !fexp_unfold. lia. Qed.

Lemma digits2_pos_size (m : positive) : digits2_pos m = Pos.size m.
Proof. induction m; simpl; congruence. Qed.

Lemma Zdigits2_pos (m : Z) : 0 < m -> Zdigits2 m = Z.log2 m + 1.
Proof.
  destruct m as [|p|p]; try lia. intros _. simpl.
  rewrite digits2_pos_size.
  destruct p; simpl; rewrite ?Pos.add_1_r; try reflexivity.
Qed.

Lemma Zdigits2_nonneg (m : Z) : 0 <= Zdigits2 m.
Proof. destruct m; simpl; lia. Qed.

Lemma Zdigits2_bounds (m : Z) :
  0 < m -> 2 ^ (Zdigits2 m - 1) <= m < 2 ^ Zdigits2 m.
Proof.
  intros H. rewrite (Zdigits2_pos m H).
  replace (Z.log2 m + 1 - 1) with (Z.log2 m) by lia.
  replace (Z.log2 m + 1) with (Z.succ (Z.log2 m)) by lia.
  apply Z.log2_spec. exact H.
Qed.

Lemma Zdigits2_unique (m d : Z) :
  2 ^ (d - 1) <= m < 2 ^ d -> 0 < d -> Zdigits2 m = d.
Proof.
  intros H Hd.
  assert (0 < m) as Hm.
  { assert (0 < 2 ^ (d - 1)) by (apply Z.pow_pos_nonneg; lia). lia. }
  rewrite (Zdigits2_pos m Hm).
  assert (Z.log2 m = d - 1); [|lia].
  apply Z.log2_unique; [lia|].
  replace (Z.succ (d - 1)) with d by lia. exact H.
Qed.

Lemma Zdigits2_monotone (a b : Z) :
  0 <= a <= b -> Zdigits2 a <= Zdigits2 b.
Proof.
  intros [Ha Hab].
  destruct (Z.eq_dec a 0) as [->|Hn].
  - apply Zdigits2_nonneg.
  - rewrite !Zdigits2_pos by lia.
    pose proof (Z.log2_le_mono a b Hab). lia.
Qed.

Lemma Zdigits2_shiftr (m n : Z) :
  0 <= m -> 0 <= n ->
  Zdigits2 (Z.shiftr m n) = Z.max 0 (Zdigits2 m - n).
Proof.
  intros Hm Hn.
  destruct (Z.eq_dec m 0) as [->|Hm0].
  - rewrite Z.shiftr_0_l. simpl. lia.
  - assert (0 < m) as Hpos by lia.
    pose proof (Z.shiftr_nonneg m n) as Hs.
    destruct (Z.eq_dec (Z.shiftr m n) 0) as [E|E].
    + rewrite E. simpl.
      apply Z.shiftr_eq_0_iff in E as [E|[_ E]]; [lia|].
      rewrite (Zdigits2_pos m Hpos). lia.
    + assert (0 < Z.shiftr m n) as Hsp by lia.
      rewrite (Zdigits2_pos _ Hsp), (Zdigits2_pos m Hpos).
      rewrite (Z.log2_shiftr m n Hpos).
      assert (~ Z.log2 m < n); [|lia].
      intros C. apply E. apply Z.shiftr_eq_0_iff. right. lia.
Qed.

(** *** Shifting right *)

Lemma shr_1_m (mrs : shr_record) :
  0 <= shr_m mrs -> shr_m (shr_1 mrs) = Z.div2 (shr_m mrs).
Proof.
  destruct mrs as [m r s]. simpl.
  destruct m as [|[p|p|]|p]; simpl; try reflexivity; lia.
Qed.

Lemma iter_shr_1_m (p : positive) : forall mrs : shr_record,
  0 <= shr_m mrs ->
  shr_m (iter_pos shr_1 p mrs) = Z.shiftr (shr_m mrs) (Zpos p).
Proof.
  assert (forall mrs, 0 <= shr_m mrs ->
            shr_m (shr_1 mrs) = Z.shiftr (shr_m mrs) 1) as H1.
  { intros mrs H. rewrite shr_1_m by exact H. apply Z.div2_spec. }
  induction p as [p IH|p IH|]; intros mrs Hm; simpl.
  - rewrite IH, IH, H1 by
      (rewrite ?IH, ?H1; try apply Z.shiftr_nonneg;
       rewrite ?H1; try apply Z.shiftr_nonneg; assumption).
    rewrite !Z.shiftr_shiftr by lia. f_equal. lia.
  - rewrite IH, IH by
      (rewrite ?IH; try apply Z.shiftr_nonneg; assumption).
    rewrite !Z.shiftr_shiftr by lia. f_equal. lia.
  - apply H1. exact Hm.
Qed.

Lemma shr_record_of_loc_m (m : Z) (l : location) :
  shr_m (shr_record_of_loc m l) = m.
Proof. destruct l as [|[| |]]; reflexivity. Qed.

Lemma shr_m_e (mrs : shr_record) (e n : Z) :
  0 <= shr_m mrs -> 0 <= n ->
  shr_m (fst (shr mrs e n)) = Z.shiftr (shr_m mrs) n
  /\ snd (shr mrs e n) = e + n.
Proof.
  intros Hm Hn. destruct n as [|p|p]; simpl.
  - split; [reflexivity|lia].
  - split; [apply iter_shr_1_m; exact Hm|reflexivity].
  - lia.
Qed.

(** One alignment step: the mantissa is shifted right down to the exponent
    [fexp] asks for, and what is left is canonical. *)
Lemma shr_fexp_spec (m e : Z) (l : location) :
  0 <= m -> e <= fexp (Zdigits2 m + e) ->
  let r := shr_fexp JS.prec JS.emax m e l in
  snd r = fexp (Zdigits2 m + e)
  /\ shr_m (fst r) = Z.shiftr m (snd r - e)
  /\ 0 <= shr_m (fst r)
  /\ (0 < shr_m (fst r) -> fexp (Zdigits2 (shr_m (fst r)) + snd r) = snd r)
  /\ (shr_m (fst r) = 0 -> snd r = -1074).
Proof.
  intros Hm He r. subst r. unfold shr_fexp.
  set (n := fexp (Zdigits2 m + e) - e).
  assert (0 <= n) as Hn by (unfold n; lia).
  destruct (shr_m_e (shr_record_of_loc m l) e n) as [E1 E2];
    rewrite ?shr_record_of_loc_m; try assumption.
  rewrite shr_record_of_loc_m in E1.
  rewrite E1, E2.
  replace (e + n) with (fexp (Zdigits2 m + e)) by (unfold n; lia).
  replace (fexp (Zdigits2 m + e) - e) with n by reflexivity.
  pose proof (Zdigits2_shiftr m n Hm Hn) as Hd.
  pose proof (Zdigits2_nonneg m) as Hdm.
  refine (conj eq_refl (conj eq_refl (conj _ (conj _ _)))).
  - apply Z.shiftr_nonneg. exact Hm.
  - intros Hpos. rewrite Hd.
    assert (0 < Zdigits2 (Z.shiftr m n)) as Hdp.
    { rewrite Zdigits2_pos by exact Hpos.
      pose proof (Z.log2_nonneg (Z.shiftr m n)). lia. }
    rewrite Hd in Hdp.
    replace (Z.max 0 (Zdigits2 m - n) + fexp (Zdigits2 m + e))
      with (Zdigits2 m + e) by (unfold n in *; lia).
    reflexivity.
  - intros Hz. rewrite Hz in Hd. simpl in Hd.
    unfold n in Hd. rewrite fexp_unfold in *. lia.
Qed.

Lemma round_nearest_even_cases (m : Z) (l : location) :
  round_nearest_even m l = m \/ round_nearest_even m l = m + 1.
Proof.
  destruct l as [|[| |]]; simpl; auto.
  destruct (Z.even m); auto.
Qed.

(** What [binary_round_aux] computes, on a non-negative mantissa that is
    not already too coarse: a right shift, a step up by at most one, and a
    second right shift that leaves a canonical mantissa. *)
Lemma binary_round_aux_spec (s : bool) (mx ex : Z) (lx : location) :
  0 <= mx -> ex <= fexp (Zdigits2 mx + ex) ->
  exists m1 e1 m2 m3 e3,
    e1 = fexp (Zdigits2 mx + ex)
    /\ m1 = Z.shiftr mx (e1 - ex)
    /\ (m2 = m1 \/ m2 = m1 + 1)
    /\ e3 = fexp (Zdigits2 m2 + e1)
    /\ e1 <= e3
    /\ m3 = Z.shiftr m2 (e3 - e1)
    /\ 0 <= m3
    /\ (0 < m3 -> fexp (Zdigits2 m3 + e3) = e3)
    /\ binary_round_aux JS.prec JS.emax s mx ex lx
       = match m3 with
         | Z0 => S754_zero s
         | Zpos m =>
             if Z.leb e3 (JS.emax - JS.prec) then S754_finite s m e3
             else S754_infinity s
         | Zneg _ => S754_nan
         end.
Proof.
  intros Hm He.
  pose proof (shr_fexp_spec mx ex lx Hm He) as H1. cbv zeta in H1.
  unfold binary_round_aux.
  destruct (shr_fexp JS.prec JS.emax mx ex lx) as [mrs' e'] eqn:E1.
  simpl in H1. destruct H1 as (He' & Hm1 & Hm1n & Hcan1 & Hz1).
  set (m2 := round_nearest_even (shr_m mrs') (loc_of_shr_record mrs')).
  assert (m2 = shr_m mrs' \/ m2 = shr_m mrs' + 1) as Hm2
    by apply round_nearest_even_cases.
  assert (0 <= m2) as Hm2n by lia.
  assert (e' <= fexp (Zdigits2 m2 + e')) as He2.
  { destruct (Z.eq_dec (shr_m mrs') 0) as [Ez|Ez].
    - rewrite (Hz1 Ez). rewrite fexp_unfold. lia.
    - rewrite <- (Hcan1 ltac:(lia)) at 1.
      apply fexp_monotone.
      assert (Zdigits2 (shr_m mrs') <= Zdigits2 m2); [|lia].
      apply Zdigits2_monotone. lia. }
  pose proof (shr_fexp_spec m2 e' loc_Exact Hm2n He2) as H2. cbv zeta in H2.
  destruct (shr_fexp JS.prec JS.emax m2 e' loc_Exact) as [mrs'' e''] eqn:E2.
  simpl in H2. destruct H2 as (He'' & Hm3 & Hm3n & Hcan3 & _).
  exists (shr_m mrs'), e', m2, (shr_m mrs''), e''.
  refine (conj He' (conj Hm1 (conj Hm2 (conj He'' (conj _ (conj Hm3
            (conj Hm3n (conj Hcan3 eq_refl)))))))).
  lia.
Qed.

(** The result has the sign asked for and is a valid binary64 number. *)
Lemma binary_round_aux_shape (s : bool) (mx ex : Z) (lx : location) :
  0 <= mx -> ex <= fexp (Zdigits2 mx + ex) ->
  let r := binary_round_aux JS.prec JS.emax s mx ex lx in
  r = S754_zero s \/ r = S754_infinity s
  \/ exists m e, r = S754_finite s m e /\ bounded JS.prec JS.emax m e = true.
Proof.
  intros Hm He r. subst r.
  destruct (binary_round_aux_spec s mx ex lx Hm He)
    as (m1 & e1 & m2 & m3 & e3 & _ & _ & _ & _ & _ & _ & Hn & Hcan & ->).
  destruct m3 as [|m|m]; [auto| |lia].
  destruct (Z.leb e3 (JS.emax - JS.prec)) eqn:Hle; [|auto].
  right; right. exists m, e3. split; [reflexivity|].
  unfold bounded, canonical_mantissa. rewrite Hle, andb_true_r.
  apply Z.eqb_eq. apply (Hcan ltac:(lia)).
Qed.

(** [shl_align] and [binary_round] *)

Lemma Pos_iter_xO (m d : positive) :
  Zpos (Pos.iter xO m d) = Zpos m * 2 ^ Zpos d.
Proof.
  induction d as [|d IH] using Pos.peano_ind.
  - simpl. lia.
  - rewrite Pos.iter_succ, Pos2Z.inj_succ, Z.pow_succ_r by lia.
    rewrite Pos2Z.inj_xO, IH. lia.
Qed.

Lemma Zdigits2_mul_pow2 (m d : Z) :
  0 < m -> 0 <= d -> Zdigits2 (m * 2 ^ d) = Zdigits2 m + d.
Proof.
  intros Hm Hd.
  assert (0 < 2 ^ d) as Hp by (apply Z.pow_pos_nonneg; lia).
  rewrite !Zdigits2_pos by nia.
  rewrite Z.log2_mul_pow2 by lia. lia.
Qed.

Lemma shl_align_spec (mx : positive) (ex : Z) :
  let '(mz, ez) := shl_align mx ex (fexp (Zpos (digits2_pos mx) + ex)) in
  ez <= fexp (Zdigits2 (Zpos mz) + ez)
  /\ ez <= ex
  /\ Zpos mz = Zpos mx * 2 ^ (ex - ez).
Proof.
  unfold shl_align.
  destruct (fexp (Zpos (digits2_pos mx) + ex) - ex) as [|d|d] eqn:E.
  - change (Zdigits2 (Zpos mx)) with (Zpos (digits2_pos mx)).
    refine (conj _ (conj _ _)); [lia|lia|].
    rewrite Z.sub_diag. simpl. lia.
  - change (Zdigits2 (Zpos mx)) with (Zpos (digits2_pos mx)).
    refine (conj _ (conj _ _)); [lia|lia|].
    rewrite Z.sub_diag. simpl. lia.
  - assert (ex - fexp (Zpos (digits2_pos mx) + ex) = Zpos d) as Ed by lia.
    rewrite Ed.
    refine (conj _ (conj _ (Pos_iter_xO mx d))); [|lia].
    rewrite Pos_iter_xO, Zdigits2_mul_pow2 by lia.
    change (Zdigits2 (Zpos mx)) with (Zpos (digits2_pos mx)).
    replace (Zpos (digits2_pos mx) + Zpos d
             + fexp (Zpos (digits2_pos mx) + ex))
      with (Zpos (digits2_pos mx) + ex) by lia.
    lia.
Qed.

Lemma binary_round_shape (s : bool) (mx : positive) (ex : Z) :
  let r := binary_round JS.prec JS.emax s mx ex in
  r = S754_zero s \/ r = S754_infinity s
  \/ exists m e, r = S754_finite s m e /\ bounded JS.prec JS.emax m e = true.
Proof.
  unfold binary_round.
  pose proof (shl_align_spec mx ex) as H.
  destruct (shl_align mx ex (fexp (Zpos (digits2_pos mx) + ex))) as [mz ez].
  destruct H as (H & _ & _).
  apply binary_round_aux_shape; [lia|exact H].
Qed.

(** *** Division *)

Lemma SFdiv_core_spec (m1 m2 : positive) (e1 e2 : Z) :
  let '(q, e', l) :=
    SFdiv_core_binary JS.prec JS.emax (Zpos m1) e1 (Zpos m2) e2 in
  0 <= q /\ e' <= fexp (Zdigits2 q + e').
Proof.
  unfold SFdiv_core_binary.
  set (d1 := Zdigits2 (Zpos m1)). set (d2 := Zdigits2 (Zpos m2)).
  set (e' := Z.min (fexp (d1 + e1 - (d2 + e2))) (e1 - e2)).
  set (sh := e1 - e2 - e').
  assert (0 <= sh) as Hsh by (unfold sh, e'; lia).
  set (m' := match sh with
             | 0 => Zpos m1
             | Zpos _ => Z.shiftl (Zpos m1) sh
             | Zneg _ => 0
             end).
  assert (m' = Zpos m1 * 2 ^ sh) as Hm'.
  { unfold m'. destruct sh as [|k|k]; [simpl; lia| |lia].
    apply Z.shiftl_mul_pow2. lia. }
  pose proof (Z_div_mod m' (Zpos m2) ltac:(lia)) as Hdiv.
  destruct (Z.div_eucl m' (Zpos m2)) as [q r].
  destruct Hdiv as [Hq Hr].
  pose proof (Zdigits2_bounds (Zpos m1) ltac:(lia)) as [Hb1 _].
  pose proof (Zdigits2_bounds (Zpos m2) ltac:(lia)) as [_ Hb2].
  fold d1 in Hb1. fold d2 in Hb2.
  assert (1 <= d1) as Hd1 by (unfold d1; simpl; lia).
  assert (1 <= d2) as Hd2 by (unfold d2; simpl; lia).
  assert (0 <= q) as Hq0.
  { assert (0 < 2 ^ sh) by (apply Z.pow_pos_nonneg; lia). nia. }
  split; [exact Hq0|].
  assert (d1 + sh - d2 <= Zdigits2 q) as Hdq.
  { destruct (Z_le_gt_dec (d1 + sh - d2) 0) as [Hle|Hgt].
    - pose proof (Zdigits2_nonneg q). lia.
    - set (k := d1 + sh - d2 - 1).
      assert (0 <= k) as Hk by (unfold k; lia).
      assert (2 ^ k <= q) as Hkq.
      { assert (2 ^ k * 2 ^ d2 = 2 ^ (d1 - 1) * 2 ^ sh) as Hpow.
        { rewrite <- !Z.pow_add_r by lia. f_equal. unfold k. lia. }
        assert (0 < 2 ^ k) by (apply Z.pow_pos_nonneg; lia).
        assert (0 < 2 ^ sh) by (apply Z.pow_pos_nonneg; lia).
        assert (2 ^ k * Zpos m2 < m') by nia.
        nia. }
      assert (Z.log2 (2 ^ k) <= Z.log2 q) as Hl
        by (apply Z.log2_le_mono; exact Hkq).
      rewrite Z.log2_pow2 in Hl by lia.
      assert (0 < q) as Hqp.
      { assert (0 < 2 ^ k) by (apply Z.pow_pos_nonneg; lia). lia. }
      rewrite (Zdigits2_pos q Hqp). unfold k in Hl. lia. }
  assert (fexp (d1 + e1 - (d2 + e2)) <= fexp (Zdigits2 q + e')) as Hmono.
  { apply fexp_monotone. unfold sh in Hdq. lia. }
  unfold e' at 1. lia.
Qed.

Lemma SFdiv_finite_shape (sx sy : bool) (mx my : positive) (ex ey : Z) :
  let r := JS.div (S754_finite sx mx ex) (S754_finite sy my ey) in
  r = S754_zero (xorb sx sy) \/ r = S754_infinity (xorb sx sy)
  \/ exists m e, r = S754_finite (xorb sx sy) m e
                 /\ bounded JS.prec JS.emax m e = true.
Proof.
  unfold JS.div, SFdiv.
  pose proof (SFdiv_core_spec mx my ex ey) as H.
  destruct (SFdiv_core_binary JS.prec JS.emax (Zpos mx) ex (Zpos my) ey)
    as [[q e'] l].
  destruct H as [Hq He].
  apply binary_round_aux_shape; assumption.
Qed.

Lemma div_valid (x y : JS.number) :
  valid_binary JS.prec JS.emax (JS.div x y) = true.
Proof.
  destruct x as [sx|sx| |sx mx ex], y as [sy|sy| |sy my ey];
    try reflexivity.
  destruct (SFdiv_finite_shape sx sy mx my ex ey)
    as [->|[->|(m & e & -> & Hb)]]; try reflexivity. exact Hb.
Qed.

Lemma div_not_NaN (x : JS.number) (sy : bool) (my : positive) (ey : Z) :
  JS.isNaN x = false -> JS.isNaN (JS.div x (S754_finite sy my ey)) = false.
Proof.
  destruct x as [sx|sx| |sx mx ex]; try reflexivity; try discriminate.
  intros _.
  destruct (SFdiv_finite_shape sx sy mx my ex ey)
    as [->|[->|(m & e & -> & Hb)]]; reflexivity.
Qed.

Lemma div_nonneg (x : JS.number) (my : positive) (ey : Z) :
  Spec.nonneg x = true ->
  Spec.nonneg (JS.div x (S754_finite false my ey)) = true.
Proof.
  destruct x as [[|]|[|]| |[|] mx ex]; try reflexivity; try discriminate.
  intros _.
  destruct (SFdiv_finite_shape false false mx my ex ey)
    as [->|[->|(m & e & -> & Hb)]]; reflexivity.
Qed.

(** *** Addition *)

Lemma add_nonneg (x y : JS.number) :
  Spec.nonneg x = true -> Spec.nonneg y = true ->
  Spec.nonneg (JS.add x y) = true.
Proof.
  destruct x as [[|]|[|]| |[|] mx ex]; try discriminate;
    destruct y as [[|]|[|]| |[|] my ey]; try discriminate;
    try reflexivity.
  intros _ _. unfold JS.add, SFadd. cbv [cond_Zopp].
  set (a := fst (shl_align mx ex (Z.min ex ey))).
  set (b := fst (shl_align my ey (Z.min ex ey))).
  change (Zpos a + Zpos b) with (Zpos (a + b)). cbv [binary_normalize].
  destruct (binary_round_shape false (a + b) (Z.min ex ey))
    as [->|[->|(m & e & -> & Hb)]]; reflexivity.
Qed.

Lemma add_valid (x y : JS.number) :
  valid_binary JS.prec JS.emax x = true ->
  valid_binary JS.prec JS.emax y = true ->
  valid_binary JS.prec JS.emax (JS.add x y) = true.
Proof.
  intros Hx Hy.
  destruct x as [[|]|[|]| |sx mx ex], y as [[|]|[|]| |sy my ey];
    try reflexivity; try assumption.
  unfold JS.add, SFadd. set (z := _ + _). unfold binary_normalize.
  destruct z as [|pz|pz]; [reflexivity| |].
  - destruct (binary_round_shape false pz (Z.min ex ey))
      as [->|[->|(m & e & -> & Hb)]]; try reflexivity. exact Hb.
  - destruct (binary_round_shape true pz (Z.min ex ey))
      as [->|[->|(m & e & -> & Hb)]]; try reflexivity. exact Hb.
Qed.

(** *** Multiplication *)

Lemma bounded_digits (m : positive) (e : Z) :
  bounded JS.prec JS.emax m e = true ->
  e = fexp (Zpos (digits2_pos m) + e) /\ e <= 971
  /\ Zpos (digits2_pos m) <= 53.
Proof.
  unfold bounded, canonical_mantissa. intros H.
  apply andb_true_iff in H as [H1 H2].
  apply Z.eqb_eq in H1. apply Z.leb_le in H2.
  change (JS.emax - JS.prec) with 971 in H2.
  pose proof H1 as H3. rewrite fexp_unfold in H3. lia.
Qed.

Lemma mul_round_hyp (mx my : positive) (ex ey : Z) :
  bounded JS.prec JS.emax mx ex = true ->
  bounded JS.prec JS.emax my ey = true ->
  ex + ey <= fexp (Zdigits2 (Zpos (mx * my)) + (ex + ey)).
Proof.
  intros Hx Hy.
  apply bounded_digits in Hx as (Hx & _ & _).
  apply bounded_digits in Hy as (Hy & _ & _).
  rewrite fexp_unfold in *.
  assert (Zdigits2 (Zpos mx) + Zdigits2 (Zpos my) - 1
          <= Zdigits2 (Zpos (mx * my))) as Hd.
  { rewrite !Zdigits2_pos by lia.
    pose proof (Z.log2_mul_below (Zpos mx) (Zpos my) ltac:(lia) ltac:(lia)).
    rewrite Pos2Z.inj_mul. lia. }
  change (Zdigits2 (Zpos mx)) with (Zpos (digits2_pos mx)) in Hd.
  change (Zdigits2 (Zpos my)) with (Zpos (digits2_pos my)) in Hd.
  lia.
Qed.

Lemma mul_finite_shape (sx sy : bool) (mx my : positive) (ex ey : Z) :
  bounded JS.prec JS.emax mx ex = true ->
  bounded JS.prec JS.emax my ey = true ->
  let r := JS.mul (S754_finite sx mx ex) (S754_finite sy my ey) in
  r = S754_zero (xorb sx sy) \/ r = S754_infinity (xorb sx sy)
  \/ exists m e, r = S754_finite (xorb sx sy) m e
                 /\ bounded JS.prec JS.emax m e = true.
Proof.
  intros Hx Hy. unfold JS.mul, SFmul.
  apply binary_round_aux_shape; [lia|].
  apply mul_round_hyp; assumption.
Qed.

Lemma mul_valid (x y : JS.number) :
  valid_binary JS.prec JS.emax x = true ->
  valid_binary JS.prec JS.emax y = true ->
  valid_binary JS.prec JS.emax (JS.mul x y) = true.
Proof.
  destruct x as [sx|sx| |sx mx ex], y as [sy|sy| |sy my ey];
    try reflexivity.
  intros Hx Hy. cbn [valid_binary] in Hx, Hy.
  destruct (mul_finite_shape sx sy mx my ex ey Hx Hy)
    as [->|[->|(m & e & -> & Hb)]]; try reflexivity. exact Hb.
Qed.

Lemma mul_not_NaN (x : JS.number) (sy : bool) (my : positive) (ey : Z) :
  valid_binary JS.prec JS.emax x = true ->
  bounded JS.prec JS.emax my ey = true ->
  JS.isNaN x = false -> JS.isNaN (JS.mul x (S754_finite sy my ey)) = false.
Proof.
  destruct x as [sx|sx| |sx mx ex]; try reflexivity; try discriminate.
  intros Hx Hy _. cbn [valid_binary] in Hx.
  destruct (mul_finite_shape sx sy mx my ex ey Hx Hy)
    as [->|[->|(m & e & -> & Hb)]]; reflexivity.
Qed.

(** *** Integers *)

Lemma binary_round_aux_canonical (s : bool) (m : positive) (e : Z) :
  fexp (Zpos (digits2_pos m) + e) = e -> e <= 971 ->
  binary_round_aux JS.prec JS.emax s (Zpos m) e loc_Exact
  = S754_finite s m e.
Proof.
  intros Hcan He.
  unfold binary_round_aux, shr_fexp. cbn [Zdigits2].
  rewrite Hcan, Z.sub_diag.
  cbn [shr shr_record_of_loc shr_m loc_of_shr_record round_nearest_even
       Zdigits2].
  rewrite Hcan, Z.sub_diag. cbn [shr shr_m].
  change (JS.emax - JS.prec) with 971.
  destruct (Z.leb_spec e 971); [reflexivity|lia].
Qed.

(** An integer below [2^53] is represented exactly, with a 53-bit
    mantissa. *)
Lemma of_Z_exact (q : Z) :
  0 < q < 2 ^ 53 ->
  JS.of_Z q
  = S754_finite false (Z.to_pos (q * 2 ^ (53 - Zdigits2 q)))
      (Zdigits2 q - 53).
Proof.
  intros [Hq Hlt]. destruct q as [|p|p]; try lia.
  unfold JS.of_Z, binary_normalize, binary_round.
  pose proof (Zdigits2_bounds (Zpos p) ltac:(lia)) as [Hlo Hhi].
  cbn [Zdigits2] in *.
  set (d := Zpos (digits2_pos p)) in *.
  assert (1 <= d) as Hd1 by (unfold d; lia).
  assert (d <= 53) as Hd.
  { destruct (Z_le_gt_dec d 53) as [H|H]; [exact H|].
    assert (2 ^ 53 <= 2 ^ (d - 1)) by (apply Z.pow_le_mono_r; lia). lia. }
  replace (d + 0) with d by lia.
  assert (fexp d = d - 53) as Hf by (rewrite fexp_unfold; lia).
  rewrite Hf. unfold shl_align.
  destruct (d - 53 - 0) as [|j|j] eqn:Ej; try lia.
  - assert (d = 53) as E53 by lia.
    rewrite E53. change (53 - 53) with 0. rewrite Z.pow_0_r, Z.mul_1_r.
    cbn [Z.to_pos].
    apply binary_round_aux_canonical; [|lia].
    fold d. rewrite E53. reflexivity.
  - assert (53 - d = Zpos j) as Ej' by lia.
    rewrite Ej', <- Pos_iter_xO. cbn [Z.to_pos].
    apply binary_round_aux_canonical; [|lia].
    change (Zpos (digits2_pos (Pos.iter xO p j)))
      with (Zdigits2 (Zpos (Pos.iter xO p j))).
    rewrite Pos_iter_xO, Zdigits2_mul_pow2 by lia.
    cbn [Zdigits2]. fold d.
    replace (d + Zpos j + (d - 53)) with d by lia. exact Hf.
Qed.

(** On such integers the order of numbers is the order of integers. *)
Lemma of_Z_compare (a b : Z) :
  0 < a < 2 ^ 53 -> 0 < b < 2 ^ 53 ->
  SFcompare (JS.of_Z a) (JS.of_Z b) = Some (a ?= b).
Proof.
  intros Ha Hb.
  rewrite (of_Z_exact a Ha), (of_Z_exact b Hb).
  pose proof (Zdigits2_bounds a ltac:(lia)) as [Hal Hah].
  pose proof (Zdigits2_bounds b ltac:(lia)) as [Hbl Hbh].
  pose proof (Zdigits2_nonneg a) as Hda0.
  pose proof (Zdigits2_nonneg b) as Hdb0.
  set (da := Zdigits2 a) in *. set (db := Zdigits2 b) in *.
  assert (1 <= da) as Hda.
  { unfold da. rewrite Zdigits2_pos by lia. pose proof (Z.log2_nonneg a). lia. }
  assert (1 <= db) as Hdb.
  { unfold db. rewrite Zdigits2_pos by lia. pose proof (Z.log2_nonneg b). lia. }
  cbn [SFcompare]. f_equal.
  destruct (Z.compare_spec (da - 53) (db - 53)) as [E|L|G].
  - assert (da = db) as Ed by lia. rewrite Ed.
    assert (db <= 53) as Hdb53.
    { destruct (Z_le_gt_dec db 53) as [H|H]; [exact H|].
      assert (2 ^ 53 <= 2 ^ (db - 1)) by (apply Z.pow_le_mono_r; lia). lia. }
    assert (0 < 2 ^ (53 - db)) as Hp by (apply Z.pow_pos_nonneg; lia).
    rewrite Pos.compare_cont_spec. cbn [Pos.switch_Eq].
    rewrite <- Z2Pos.inj_compare by nia.
    rewrite <- (Zmult_compare_compat_r a b (2 ^ (53 - db))) by lia.
    destruct (a ?= b); reflexivity.
  - symmetry. apply Z.compare_lt_iff.
    assert (2 ^ da <= 2 ^ (db - 1)) by (apply Z.pow_le_mono_r; lia). lia.
  - symmetry. apply Z.compare_gt_iff.
    assert (2 ^ db <= 2 ^ (da - 1)) by (apply Z.pow_le_mono_r; lia). lia.
Qed.

(** *** Decimal literals *)

Lemma of_decimal_valid (s : bool) (m : positive) (e : Z) :
  valid_binary JS.prec JS.emax (JS.of_decimal s m e) = true.
Proof.
  assert (forall r : spec_float,
             (r = S754_zero s \/ r = S754_infinity s
              \/ exists m' e', r = S754_finite s m' e'
                               /\ bounded JS.prec JS.emax m' e' = true) ->
             valid_binary JS.prec JS.emax r = true) as Hshape.
  { intros r [->|[->|(m' & e' & -> & Hb)]]; try reflexivity. exact Hb. }
  unfold JS.of_decimal. destruct e as [|p|p].
  - apply Hshape, binary_round_shape.
  - apply Hshape, binary_round_shape.
  - assert (0 < 10 ^ Zpos p) as Hpow by (apply Z.pow_pos_nonneg; lia).
    destruct (10 ^ Zpos p) as [|d|d]; try lia.
    pose proof (SFdiv_core_spec m d 0 0) as H.
    destruct (SFdiv_core_binary JS.prec JS.emax (Zpos m) 0 (Zpos d) 0)
      as [[q e'] l].
    destruct H as [Hq He].
    apply Hshape, binary_round_aux_shape; assumption.
Qed.

Lemma parseFloat_valid (value : JSString.jsstring) :
  valid_binary JS.prec JS.emax (JSString.parseFloat value) = true.
Proof.
  unfold JSString.parseFloat.
  destruct (JSString.read_sign (JSString.trimStart value)) as [neg t].
  destruct (JSString.starts_with (JSString.str "Infinity") t);
    [reflexivity|].
  destruct (JSString.span_digits t) as [ip r1].
  destruct (match r1 with
            | 46%N :: r => JSString.span_digits r
            | _ => ([], r1)
            end) as [fp r2].
  assert (valid_binary JS.prec JS.emax
            match JSString.digits_value (ip ++ fp) with
            | 0%N => S754_zero neg
            | N.pos m =>
                JS.of_decimal neg m
                  (JSString.read_exponent r2 - Z.of_nat (List.length fp))
            end = true) as H.
  { destruct (JSString.digits_value (ip ++ fp));
      [reflexivity|apply of_decimal_valid]. }
  destruct ip, fp; first [exact H | reflexivity].
Qed.

Lemma div_pos_finite_nonneg (x y : JS.number) :
  Spec.nonneg x = true -> Spec.pos_finite y = true ->
  Spec.nonneg (JS.div x y) = true.
Proof.
  destruct y as [sy|sy| |[|] my ey]; try discriminate.
  intros H _. apply div_nonneg. exact H.
Qed.

Lemma div_pos_finite_not_NaN (x y : JS.number) :
  JS.isNaN x = false -> Spec.pos_finite y = true ->
  JS.isNaN (JS.div x y) = false.
Proof.
  destruct y as [sy|sy| |[|] my ey]; try discriminate.
  intros H _. apply div_not_NaN. exact H.
Qed.

Lemma mul_pos_finite_not_NaN (x y : JS.number) :
  valid_binary JS.prec JS.emax x = true ->
  valid_binary JS.prec JS.emax y = true ->
  JS.isNaN x = false -> Spec.pos_finite y = true ->
  JS.isNaN (JS.mul x y) = false.
Proof.
  destruct y as [sy|sy| |[|] my ey]; try discriminate.
  intros Hx Hy H _. apply mul_not_NaN; assumption.
Qed.

Lemma nonneg_not_NaN (x : JS.number) :
  Spec.nonneg x = true -> JS.isNaN x = false.
Proof. destruct x as [[|]|[|]| |[|] m e]; try discriminate; reflexivity. Qed.

End Rounding.

(* ================================================================= *)
(** ** The average of an accepted assignment is not negative *)

Section AcceptedAverage.
Import JSString Form Spec.

Lemma min_is_zero (key : ParamKey) : min (parameterInfo key) = 0.
Proof. destruct key; reflexivity. Qed.

Lemma max_is_pos_finite (key : ParamKey) :
  pos_finite (JS.of_Z (max (parameterInfo key))) = true.
Proof. destruct key; vm_compute; reflexivity. Qed.

Lemma accepted_value_nonneg (key : ParamKey) (v : jsstring) :
  validateParameter key v = None ->
  nonneg (JS.or_else (parseFloat v) (JS.of_Z 0)) = true.
Proof.
  rewrite validateParameter_unfold.
  destruct (blank v) eqn:Hb.
  - intros _. rewrite (parseFloat_blank v Hb). reflexivity.
  - destruct (JS.isNaN (parseFloat v)) eqn:Hn; [discriminate|].
    destruct (out_of_range key v) eqn:Hr; [discriminate|]. intros _.
    unfold out_of_range in Hr. rewrite min_is_zero in Hr.
    apply orb_false_iff in Hr as [Hlo Hhi].
    pose proof (max_is_pos_finite key) as Hmax.
    destruct (JS.of_Z (max (parameterInfo key))) as [?|?| |[|] mm em];
      try discriminate.
    destruct (parseFloat v) as [[|]|[|]| |[|] m e];
      try reflexivity; try discriminate.
Qed.

Lemma sumValues_nonneg (vs : list JS.number) :
  Forall (fun v => nonneg v = true) vs ->
  nonneg (sumValues vs) = true.
Proof.
  unfold sumValues.
  assert (nonneg (JS.of_Z 0) = true) as H0 by reflexivity.
  revert H0. generalize (JS.of_Z 0) as acc.
  induction vs as [|v vs IH]; intros acc Hacc Hvs; simpl.
  - exact Hacc.
  - inversion Hvs as [|? ? Hv Hrest]; subst.
    apply IH; [|exact Hrest]. apply add_nonneg; assumption.
Qed.

Lemma accepted_values_nonneg (p : SolarParameters) :
  accepted p -> Forall (fun v => nonneg v = true) (values p).
Proof.
  intros H. unfold values, Object_values. rewrite map_map.
  apply Forall_forall. intros x Hx.
  apply in_map_iff in Hx as (key & <- & _).
  apply (accepted_value_nonneg key). apply H.
Qed.

Lemma accepted_avg_nonneg (p : SolarParameters) :
  accepted p -> nonneg (avgValue p) = true.
Proof.
  intros H. rewrite avgValue_unfold.
  apply div_pos_finite_nonneg; [|reflexivity].
  apply sumValues_nonneg, accepted_values_nonneg, H.
Qed.

End AcceptedAverage.

(* ================================================================= *)
(** ** The class index *)

Section ClassIndex.
Import JSString Form Spec.

Lemma Math_min_of_Z_4 (q : Z) :
  0 <= q < 2 ^ 53 ->
  JS.Math_min (JS.of_Z q) (JS.of_Z 4) = JS.of_Z (Z.min q 4).
Proof.
  intros [Hq0 Hq].
  destruct (Z.eq_dec q 0) as [->|Hn]; [reflexivity|].
  assert (0 < q < 2 ^ 53) as Hq' by lia.
  unfold JS.Math_min. rewrite (of_Z_compare q 4 Hq' ltac:(lia)).
  destruct (Z.compare_spec q 4) as [E|L|G].
  - subst q. reflexivity.
  - rewrite Z.min_l by lia. reflexivity.
  - rewrite Z.min_r by lia. reflexivity.
Qed.

(** The index the code computes is the integer [class_index], between 0
    and 4. *)
Lemma classIndex_spec (avg : JS.number) :
  nonneg avg = true ->
  JS.Math_min (JS.Math_floor (JS.div avg (JS.of_Z 2500))) (JS.of_Z 4)
  = JS.of_Z (class_index avg)
  /\ 0 <= class_index avg <= 4.
Proof.
  intros Havg. unfold class_index.
  pose proof (div_pos_finite_nonneg avg (JS.of_Z 2500) Havg eq_refl) as Hn.
  pose proof (div_valid avg (JS.of_Z 2500)) as Hv.
  destruct (JS.div avg (JS.of_Z 2500)) as [[|]|[|]| |[|] m e];
    try discriminate.
  - split; [reflexivity|simpl; lia].
  - split; [reflexivity|lia].
  - cbn [valid_binary] in Hv.
    apply bounded_digits in Hv as (Hcan & He & Hd).
    pose proof (Zdigits2_bounds (Zpos m) ltac:(lia)) as [Hlo Hhi].
    cbn [Zdigits2] in Hlo, Hhi.
    assert (Zpos m < 2 ^ 53) as Hm53.
    { assert (2 ^ Zpos (digits2_pos m) <= 2 ^ 53)
        by (apply Z.pow_le_mono_r; lia). lia. }
    cbn [floor_Z cond_Zopp].
    destruct e as [|k|k].
    + (* an integer with a 53-bit mantissa *)
      rewrite fexp_unfold in Hcan.
      assert (Zpos (digits2_pos m) = 53) as E53 by lia.
      rewrite E53 in Hlo. change (2 ^ (53 - 1)) with 4503599627370496 in Hlo.
      rewrite Z.shiftl_0_r. rewrite Z.min_r by lia.
      split; [|lia]. cbn [JS.Math_floor]. reflexivity.
    + rewrite fexp_unfold in Hcan.
      assert (Zpos (digits2_pos m) = 53) as E53 by lia.
      rewrite E53 in Hlo. change (2 ^ (53 - 1)) with 4503599627370496 in Hlo.
      assert (Zpos m <= Z.shiftl (Zpos m) (Zpos k)) as Hsh.
      { rewrite Z.shiftl_mul_pow2 by lia.
        assert (1 <= 2 ^ Zpos k) by (apply Z.pow_le_mono_r with (b := 0); lia).
        nia. }
      rewrite Z.min_r by lia.
      split; [|lia]. cbn [JS.Math_floor]. reflexivity.
    + change (Z.shiftl (Zpos m) (Zneg k)) with (Z.shiftr (Zpos m) (Zpos k)).
      set (q := Z.shiftr (Zpos m) (Zpos k)).
      assert (0 <= q) as Hq0 by (apply Z.shiftr_nonneg; lia).
      assert (q <= Zpos m) as Hqm.
      { unfold q. rewrite Z.shiftr_div_pow2 by lia.
        apply Z.div_le_upper_bound.
        - apply Z.pow_pos_nonneg; lia.
        - assert (1 <= 2 ^ Zpos k)
            by (apply Z.pow_le_mono_r with (b := 0); lia).
          nia. }
      change (JS.Math_floor (S754_finite false m (Zneg k))) with (JS.of_Z q).
      split; [|lia]. apply Math_min_of_Z_4. lia.
Qed.

Lemma mockClasses_lookup (z : Z) :
  0 <= z <= 4 ->
  JS.to_integer (JS.of_Z z) = Some z
  /\ JS.array_get Classification.mockClasses (JS.of_Z z)
     = nth_error Classification.mockClasses (Z.to_nat z)
  /\ exists cls,
      nth_error Classification.mockClasses (Z.to_nat z) = Some cls
      /\ In cls Classification.mockClasses.
Proof.
  intros H.
  assert (z = 0 \/ z = 1 \/ z = 2 \/ z = 3 \/ z = 4) as Hz by lia.
  destruct Hz as [->|[->|[->|[->| ->]]]];
    (refine (conj eq_refl (conj eq_refl _)); eexists;
     split; [reflexivity|simpl; tauto]).
Qed.

Lemma final_class_unfold (avg : JS.number) :
  Classification.final_class (Classification.mockResponse avg)
  = JS.array_get Classification.mockClasses
      (JS.Math_min (JS.Math_floor (JS.div avg (JS.of_Z 2500))) (JS.of_Z 4)).
Proof. reflexivity. Qed.

Lemma confidence_unfold (avg : JS.number) :
  Classification.confidence (Classification.mockResponse avg)
  = confidence_of avg.
Proof.
  unfold Classification.mockResponse, confidence_of.
  cbn [Classification.confidence].
  apply (Math_min_max_clamp (JS.of_decimal false 4 (-1))
           (JS.of_decimal false 98 (-2)) _
           7205759403792794 (-54) 8827055269646172 (-53)); reflexivity.
Qed.

Lemma binary_prediction_spec (avg : JS.number) :
  let r := Classification.mockResponse avg in
  let major :=
    Classification.final_class r = Some "M"%string
    \/ Classification.final_class r = Some "X"%string in
  (Classification.binary_prediction r = "Major Flare"%string <-> major)
  /\ (Classification.binary_prediction r = "No Major Flare"%string
      <-> ~ major).
Proof.
  intros r major. subst r major.
  unfold Classification.mockResponse.
  cbn [Classification.binary_prediction Classification.final_class].
  set (fc := JS.array_get Classification.mockClasses _).
  unfold Classification.strict_eq.
  destruct fc as [f|].
  - destruct (String.eqb_spec f "M") as [->|HM].
    + cbn [orb]. split; split; try discriminate; intros H; auto.
      elim H. auto.
    + destruct (String.eqb_spec f "X") as [->|HX].
      * cbn [orb]. split; split; try discriminate; intros H; auto.
        elim H. auto.
      * cbn [orb]. split; split; try discriminate; intros H; auto.
        -- destruct H as [H|H]; injection H; congruence.
        -- intros [C|C]; injection C; congruence.
  - cbn. split; split; try discriminate; intros H; auto.
    + destruct H; discriminate.
    + intros [C|C]; discriminate.
Qed.

End ClassIndex.

(* ================================================================= *)
(** ** Claims about the classification *)

Section ClassificationClaims.
Import JSString Form Spec.

(** C2. After a valid submission in the classification variant,
    [final_class] is the element of [['B', 'C', 'M', 'X', 'B/C']] at index
    [min(floor(average / 2500), 4)], where [average] is the sum of the
    thirteen parsed values divided by 13, and [binary_prediction] is
    ['Major Flare'] exactly when [final_class] is ['M'] or ['X'], otherwise
    ['No Major Flare']. *)
Theorem C2_final_class_and_binary_prediction
  (p : SolarParameters) (Hacc : accepted p) :
  let average := JS.div (sumValues (values p)) (JS.of_Z 13) in
  forall s t : Classification.State,
    Classification.parameters s = p ->
    exists r,
      prediction_C s t = Some r
      /\ Classification.final_class r
         = JS.array_get Classification.mockClasses
             (JS.Math_min (JS.Math_floor (JS.div average (JS.of_Z 2500)))
                (JS.of_Z 4))
      /\ Classification.final_class r
         = nth_error ["B"; "C"; "M"; "X"; "B/C"]%string
             (Z.to_nat (class_index average))
      /\ (Classification.binary_prediction r = "Major Flare"%string
          <-> Classification.final_class r = Some "M"%string
              \/ Classification.final_class r = Some "X"%string)
      /\ (Classification.binary_prediction r = "No Major Flare"%string
          <-> ~ (Classification.final_class r = Some "M"%string
                 \/ Classification.final_class r = Some "X"%string)).
Proof.
  intros average s t E.
  exists (Classification.mockResponse average).
  pose proof (accepted_avg_nonneg p Hacc) as Hn.
  rewrite avgValue_unfold in Hn. fold average in Hn.
  destruct (classIndex_spec average Hn) as [Hidx Hrange].
  destruct (mockClasses_lookup _ Hrange) as (_ & Hget & _).
  pose proof (binary_prediction_spec average) as [Hmaj Hno].
  refine (conj _ (conj _ (conj _ (conj Hmaj Hno)))).
  - rewrite prediction_C_accepted by (rewrite E; exact Hacc).
    rewrite E. reflexivity.
  - apply final_class_unfold.
  - rewrite final_class_unfold, Hidx. exact Hget.
Qed.

Lemma C2_final_class_and_binary_prediction_witness :
  exists r,
    prediction_C (state_C sampleData) Classification.initialState = Some r
    /\ Classification.final_class r = Some "M"%string
    /\ Classification.binary_prediction r = "Major Flare"%string.
Proof.
  destruct (C2_final_class_and_binary_prediction sampleData
              accepted_sampleData (state_C sampleData)
              Classification.initialState eq_refl)
    as (r & Hr & _ & Hcls & Hmaj & _).
  exists r.
  assert (Classification.final_class r = Some "M"%string) as HM.
  { rewrite Hcls. vm_compute. reflexivity. }
  refine (conj Hr (conj HM _)).
  apply Hmaj. left. exact HM.
Defined.

(** C8. When every field passes validation, the class index
    [min(floor(average / 2500), 4)] is an integer between 0 and 4, so the
    lookup in the five-element array is in bounds and [final_class] is one
    of ['B'], ['C'], ['M'], ['X'], ['B/C']. *)
Theorem C8_class_index_in_bounds
  (p : SolarParameters) (Hacc : accepted p) :
  let average := JS.div (sumValues (values p)) (JS.of_Z 13) in
  let classIndex :=
    JS.Math_min (JS.Math_floor (JS.div average (JS.of_Z 2500))) (JS.of_Z 4) in
  exists (z : Z) (cls : string),
    JS.to_integer classIndex = Some z
    /\ 0 <= z <= 4
    /\ (Z.to_nat z < List.length Classification.mockClasses)%nat
    /\ JS.array_get Classification.mockClasses classIndex = Some cls
    /\ In cls ["B"; "C"; "M"; "X"; "B/C"]%string
    /\ forall s t : Classification.State,
        Classification.parameters s = p ->
        exists r, prediction_C s t = Some r
                  /\ Classification.final_class r = Some cls.
Proof.
  intros average classIndex.
  pose proof (accepted_avg_nonneg p Hacc) as Hn.
  rewrite avgValue_unfold in Hn. fold average in Hn.
  destruct (classIndex_spec average Hn) as [Hidx Hrange].
  fold classIndex in Hidx.
  destruct (mockClasses_lookup _ Hrange) as (Hint & Hget & cls & Hcls & Hin).
  exists (class_index average), cls.
  rewrite Hidx.
  refine (conj Hint (conj Hrange (conj _ (conj _ (conj Hin _))))).
  - change (List.length Classification.mockClasses) with 5%nat. lia.
  - rewrite Hget. exact Hcls.
  - intros s t E. exists (Classification.mockResponse average).
    split.
    + rewrite prediction_C_accepted by (rewrite E; exact Hacc).
      rewrite E. reflexivity.
    + rewrite final_class_unfold. fold classIndex.
      rewrite Hidx, Hget. exact Hcls.
Qed.

Lemma C8_class_index_in_bounds_witness :
  exists (z : Z) (cls : string),
    JS.to_integer
      (JS.Math_min
         (JS.Math_floor
            (JS.div (JS.div (sumValues (values sampleData)) (JS.of_Z 13))
               (JS.of_Z 2500)))
         (JS.of_Z 4)) = Some z
    /\ 0 <= z <= 4
    /\ In cls ["B"; "C"; "M"; "X"; "B/C"]%string.
Proof.
  destruct (C8_class_index_in_bounds sampleData accepted_sampleData)
    as (z & cls & Hz & Hr & _ & _ & Hin & _).
  exists z, cls. exact (conj Hz (conj Hr Hin)).
Defined.

End ClassificationClaims.

(* ================================================================= *)
(** ** Rounding a clamped probability to two decimals *)

Section RoundTwoDecimals.
Import Spec.

Local Abbreviation fexp := (SpecFloat.fexp JS.prec JS.emax).

Lemma SFleb_finite (m1 m2 : positive) (e1 e2 : Z) :
  SFleb (S754_finite false m1 e1) (S754_finite false m2 e2) = true
  <-> e1 < e2 \/ (e1 = e2 /\ Zpos m1 <= Zpos m2).
Proof.
  unfold SFleb. cbn [SFcompare].
  destruct (Z.compare_spec e1 e2) as [E|L|G].
  - rewrite Pos.compare_cont_spec. cbn [Pos.switch_Eq].
    destruct (Pos.compare_spec m1 m2) as [Em|Lm|Gm]; split; intros H;
      try reflexivity; try discriminate; try lia.
  - split; [lia|reflexivity].
  - split; [discriminate|lia].
Qed.

Lemma in_range_5_95_finite (p : JS.number) :
  valid_binary JS.prec JS.emax p = true ->
  in_range (JS.of_Z 5) (JS.of_Z 95) p = true ->
  exists m e,
    p = S754_finite false m e
    /\ bounded JS.prec JS.emax m e = true
    /\ -50 <= e <= -46
    /\ 4503599627370496 <= Zpos m < 9007199254740992
    /\ (e = -50 -> 5629499534213120 <= Zpos m)
    /\ (e = -46 -> Zpos m <= 6685030696878080).
Proof.
  intros Hv Hr. unfold in_range, JS.leb in Hr.
  apply andb_true_iff in Hr as [Hlo Hhi].
  change (JS.of_Z 5) with (S754_finite false 5629499534213120 (-50)) in Hlo.
  change (JS.of_Z 95) with (S754_finite false 6685030696878080 (-46)) in Hhi.
  destruct p as [[|]|[|]| |[|] m e]; try discriminate.
  apply SFleb_finite in Hlo. apply SFleb_finite in Hhi.
  cbn [valid_binary] in Hv.
  exists m, e.
  pose proof (bounded_digits m e Hv) as (Hcan & _ & Hd).
  rewrite fexp_unfold in Hcan.
  assert (Zpos (digits2_pos m) = 53) as E53 by lia.
  pose proof (Zdigits2_bounds (Zpos m) ltac:(lia)) as Hb.
  cbn [Zdigits2] in Hb. rewrite E53 in Hb.
  change (2 ^ (53 - 1)) with 4503599627370496 in Hb.
  change (2 ^ 53) with 9007199254740992 in Hb.
  refine (conj eq_refl (conj Hv (conj _ (conj Hb (conj _ _))))); lia.
Qed.

Lemma half_up (h : Z) :
  (if Z.odd h then Z.div2 h + 1 else Z.div2 h) = (h + 1) / 2.
Proof.
  pose proof (Z.div2_odd h) as H.
  rewrite Z.div2_div in *.
  destruct (Z.odd h); cbn [Z.b2z] in H; cbv iota;
    Z.div_mod_to_equations; lia.
Qed.

Lemma Math_round_pos (m k : positive) :
  JS.Math_round (S754_finite false m (Zneg k))
  = JS.of_Z ((Z.shiftr (Zpos m) (Zpos k - 1) + 1) / 2).
Proof.
  unfold JS.Math_round. cbv zeta. rewrite half_up. reflexivity.
Qed.


Lemma holds_from_spec (f : Z -> bool) (count : nat) : forall lo z,
  holds_from f lo count = true ->
  lo <= z < lo + Z.of_nat count -> f z = true.
Proof.
  induction count as [|k IH]; intros lo z H Hz.
  - simpl in Hz. lia.
  - simpl in H. apply andb_true_iff in H as [H0 Hk].
    destruct (Z.eq_dec z lo) as [->|Hn]; [exact H0|].
    apply (IH (lo + 1)); [exact Hk|lia].
Qed.

Lemma hundredths_in_range (n : Z) :
  500 <= n <= 9500 ->
  in_range (JS.of_Z 5) (JS.of_Z 95) (JS.div (JS.of_Z n) (JS.of_Z 100)) = true.
Proof.
  intros H.
  apply (holds_from_spec
           (fun n => in_range (JS.of_Z 5) (JS.of_Z 95)
                       (JS.div (JS.of_Z n) (JS.of_Z 100)))
           (Z.to_nat 9001) 500).
  - vm_compute. reflexivity.
  - rewrite Z2Nat.id by lia. lia.
Qed.

(** Closed powers of two and closed right-hand sides, evaluated. *)
Ltac eval_pow2 :=
  repeat match goal with
    | |- context [2 ^ ?k] =>
        let c := eval vm_compute in (2 ^ k) in
        progress change (2 ^ k) with c
    | H : context [2 ^ ?k] |- _ =>
        let c := eval vm_compute in (2 ^ k) in
        progress change (2 ^ k) with c in H
    end.

Ltac eval_rhs H :=
  match type of H with
  | _ = ?rhs => let c := eval vm_compute in rhs in change rhs with c in H
  end.

Ltac exponent_in_range :=
  match goal with
  | |- context [Z.leb ?a (JS.emax - JS.prec)] =>
      change (Z.leb a (JS.emax - JS.prec)) with true; cbv iota
  end.

(** A probability [x] in [[5, 95]] times 100, rounded to an integer, is an
    integer between 500 and 9500.  The exponent of [x] takes five values
    and the product of the two mantissas has 105 or 106 digits; in each case
    the mantissa of the rounded product is a quotient by a known power of
    two, stepped up by at most one, and the bounds are linear arithmetic. *)
Lemma round_mul_100 (m : positive) (e : Z) :
  bounded JS.prec JS.emax m e = true ->
  -50 <= e <= -46 ->
  4503599627370496 <= Zpos m < 9007199254740992 ->
  (e = -50 -> 5629499534213120 <= Zpos m) ->
  (e = -46 -> Zpos m <= 6685030696878080) ->
  exists n,
    500 <= n <= 9500
    /\ JS.Math_round (JS.mul (S754_finite false m e) (JS.of_Z 100))
       = JS.of_Z n.
Proof.
  intros Hb He Hm H5 H95.
  change (JS.of_Z 100) with (S754_finite false 7036874417766400 (-46)).
  unfold JS.mul, SFmul. cbn [xorb].
  assert (bounded JS.prec JS.emax 7036874417766400 (-46) = true) as Hb100
    by reflexivity.
  pose proof (mul_round_hyp m 7036874417766400 e (-46) Hb Hb100) as Hhyp.
  destruct (binary_round_aux_spec false (Zpos (m * 7036874417766400))
              (e + -46) loc_Exact ltac:(lia) Hhyp)
    as (m1 & e1 & m2 & m3 & e3 & He1 & Hm1 & Hm2 & He3 & _ & Hm3 & Hm3n
        & _ & ->).
  clear Hhyp Hb Hb100.
  rewrite Pos2Z.inj_mul in *.
  remember (Zpos m * 7036874417766400) as P eqn:EP.
  assert (0 < P) as HP by lia.
  pose proof (Zdigits2_bounds P HP) as HdP.
  remember (Zdigits2 P) as dP eqn:EdP. clear EdP.
  assert (dP = 105 \/ dP = 106) as HdPc.
  { assert (2 ^ 104 <= P < 2 ^ 106) as HPb.
    { change (2 ^ 104) with 20282409603651670423947251286016.
      change (2 ^ 106) with 81129638414606681695789005144064. lia. }
    destruct (Z_le_gt_dec dP 104) as [Hl|Hl].
    { assert (2 ^ dP <= 2 ^ 104) by (apply Z.pow_le_mono_r; lia). lia. }
    destruct (Z_le_gt_dec 107 dP) as [Hg|Hg].
    { assert (2 ^ 106 <= 2 ^ (dP - 1)) by (apply Z.pow_le_mono_r; lia). lia. }
    lia. }
  rewrite fexp_unfold in He1.
  assert (e = -50 \/ e = -49 \/ e = -48 \/ e = -47 \/ e = -46) as Hec by lia.
  clear He.
  destruct Hec as [->|[->|[->|[->| ->]]]]; destruct HdPc as [-> | ->];
    (* the first shift: [m1] has 53 digits *)
    eval_rhs He1; subst e1;
    rewrite Z.shiftr_div_pow2 in Hm1 by lia;
    eval_pow2;
    (assert (4503599627370496 <= m1 < 9007199254740992) as Hm1b
      by (subst m1; Z.div_mod_to_equations; lia));
    (* the step up may carry into a 54th digit *)
    (destruct (Z_lt_ge_dec m2 9007199254740992) as [Hc|Hc];
     [ assert (Zdigits2 m2 = 53) as Ed
         by (apply Zdigits2_unique; [eval_pow2; lia|lia])
     | assert (Zdigits2 m2 = 54) as Ed
         by (apply Zdigits2_unique; [eval_pow2; lia|lia]) ]);
    (* the second shift, by no digit or by one *)
    rewrite Ed, fexp_unfold in He3; eval_rhs He3; subst e3;
    rewrite Z.shiftr_div_pow2 in Hm3 by lia; eval_pow2;
    (destruct m3 as [|p3|p3];
     [ exfalso; Z.div_mod_to_equations; lia | | exfalso; lia ]);
    exponent_in_range;
    (* the nearest integer *)
    rewrite Math_round_pos;
    (eexists; split; [|reflexivity]);
    rewrite Z.shiftr_div_pow2 by lia; eval_pow2;
    Z.div_mod_to_equations; lia.
Qed.

End RoundTwoDecimals.

(* ================================================================= *)
(** ** Clamped outputs *)

Section ClampedOutputs.
Import JSString Form Spec.

Lemma SFcompare_refl (x : spec_float) :
  JS.isNaN x = false -> SFcompare x x = Some Eq.
Proof.
  destruct x as [[|]|[|]| |[|] m e]; try reflexivity; try discriminate;
    intros _; cbn [SFcompare]; rewrite Z.compare_refl, Pos.compare_cont_refl;
    reflexivity.
Qed.

Lemma clamp_in_range (lo hi v : JS.number) :
  SFcompare lo hi = Some Lt -> JS.isNaN v = false ->
  in_range lo hi (clamp lo hi v) = true.
Proof.
  intros Hlt Hv.
  assert (JS.isNaN lo = false /\ JS.isNaN hi = false) as [Hlo Hhi].
  { destruct lo, hi; try discriminate; auto. }
  assert (SFleb lo hi = true) as Hle by (unfold SFleb; rewrite Hlt; reflexivity).
  assert (SFleb lo lo = true) as Hll
    by (unfold SFleb; rewrite (SFcompare_refl lo Hlo); reflexivity).
  assert (SFleb hi hi = true) as Hhh
    by (unfold SFleb; rewrite (SFcompare_refl hi Hhi); reflexivity).
  unfold clamp, in_range, JS.leb, JS.ltb.
  destruct (SFltb v lo) eqn:E1.
  - rewrite Hll, Hle. reflexivity.
  - destruct (SFltb hi v) eqn:E2.
    + rewrite Hle, Hhh. reflexivity.
    + rewrite (SFltb_leb_flip v lo), (SFltb_leb_flip hi v), E1, E2.
      * reflexivity.
      * intros C. apply SFcompare_None in C as [C|C]; congruence.
      * intros C. apply SFcompare_None in C as [C|C]; congruence.
Qed.

Lemma clamp_valid (lo hi v : JS.number) :
  valid_binary JS.prec JS.emax lo = true ->
  valid_binary JS.prec JS.emax hi = true ->
  valid_binary JS.prec JS.emax v = true ->
  valid_binary JS.prec JS.emax (clamp lo hi v) = true.
Proof.
  intros Hlo Hhi Hv. unfold clamp.
  destruct (JS.ltb v lo); [exact Hlo|].
  destruct (JS.ltb hi v); assumption.
Qed.

Lemma add_finite_not_NaN (x y : JS.number) :
  pos_finite x = true -> JS.isNaN y = false -> JS.isNaN (JS.add x y) = false.
Proof.
  destruct x as [?|?| |[|] mx ex]; try discriminate. intros _.
  destruct y as [sy|sy| |sy my ey]; try discriminate; try reflexivity.
  intros _. unfold JS.add, SFadd.
  set (z := _ + _). unfold binary_normalize.
  destruct z as [|pz|pz]; [reflexivity| |].
  - destruct (binary_round_shape false pz (Z.min ex ey))
      as [->|[->|(m & e & -> & _)]]; reflexivity.
  - destruct (binary_round_shape true pz (Z.min ex ey))
      as [->|[->|(m & e & -> & _)]]; reflexivity.
Qed.

(** The rounded probability is a number of hundredths. *)
Lemma probability_hundredths (avg : JS.number) :
  JS.isNaN avg = false ->
  exists n : Z,
    500 <= n <= 9500
    /\ round2 (clamp (JS.of_Z 5) (JS.of_Z 95)
                 (JS.mul (JS.div avg (JS.of_Z 10000)) (JS.of_Z 100)))
       = JS.div (JS.of_Z n) (JS.of_Z 100).
Proof.
  intros Hn.
  set (v := JS.mul (JS.div avg (JS.of_Z 10000)) (JS.of_Z 100)).
  assert (valid_binary JS.prec JS.emax v = true) as Hv.
  { apply mul_valid; [apply div_valid|reflexivity]. }
  assert (JS.isNaN v = false) as Hvn.
  { apply mul_pos_finite_not_NaN;
      [apply div_valid|reflexivity| |reflexivity].
    apply div_pos_finite_not_NaN; [exact Hn|reflexivity]. }
  assert (valid_binary JS.prec JS.emax (clamp (JS.of_Z 5) (JS.of_Z 95) v)
          = true) as Hcv
    by (apply clamp_valid; [reflexivity|reflexivity|exact Hv]).
  assert (in_range (JS.of_Z 5) (JS.of_Z 95)
            (clamp (JS.of_Z 5) (JS.of_Z 95) v) = true) as Hcr
    by (apply clamp_in_range; [reflexivity|exact Hvn]).
  destruct (in_range_5_95_finite _ Hcv Hcr)
    as (m & e & Ec & Hb & He & Hm & H5 & H95).
  destruct (round_mul_100 m e Hb He Hm H5 H95) as (n & Hnr & E).
  exists n. split; [exact Hnr|].
  unfold round2. rewrite Ec, E. reflexivity.
Qed.

Lemma probability_in_range (avg : JS.number) :
  JS.isNaN avg = false ->
  in_range (JS.of_Z 5) (JS.of_Z 95)
    (round2 (clamp (JS.of_Z 5) (JS.of_Z 95)
               (JS.mul (JS.div avg (JS.of_Z 10000)) (JS.of_Z 100)))) = true.
Proof.
  intros Hn. destruct (probability_hundredths avg Hn) as (n & Hr & ->).
  apply hundredths_in_range. exact Hr.
Qed.

Lemma confidence_in_range (avg : JS.number) :
  JS.isNaN avg = false ->
  in_range (JS.of_decimal false 4 (-1)) (JS.of_decimal false 98 (-2))
    (confidence_of avg) = true.
Proof.
  intros Hn. unfold confidence_of.
  apply clamp_in_range; [reflexivity|].
  apply add_finite_not_NaN; [reflexivity|].
  apply div_pos_finite_not_NaN; [exact Hn|reflexivity].
Qed.


Lemma confidence_valid (avg : JS.number) :
  valid_binary JS.prec JS.emax (confidence_of avg) = true.
Proof.
  unfold confidence_of.
  apply clamp_valid; [reflexivity|reflexivity|].
  apply add_valid; [reflexivity|apply div_valid].
Qed.



End ClampedOutputs.

(* ================================================================= *)
(** ** Claims about the probability and the clamped outputs *)

Section ClampClaims.
Import JSString Form Spec.






(** X1. The sum the prediction depends on is the one [reduce] computes,
    from left to right in binary64: two accepted assignments whose values
    have the same sum in exact arithmetic can have different computed sums,
    and different classes. *)
Theorem computed_sum_depends_on_order :
  accepted one_entry /\ accepted five_entries
  /\ Qeq (exact_sum (values one_entry)) (32500 # 1)
  /\ Qeq (exact_sum (values five_entries)) (32500 # 1)
  /\ sumValues (values one_entry) <> sumValues (values five_entries)
  /\ Classification.final_class
       (Classification.mockResponse (avgValue one_entry)) = Some "C"%string
  /\ Classification.final_class
       (Classification.mockResponse (avgValue five_entries))
     = Some "B"%string.
Proof.
  refine (conj _ (conj _ (conj _ (conj _ (conj _ (conj _ _)))))).
  - apply validate_all_accepted. vm_compute. reflexivity.
  - apply validate_all_accepted. vm_compute. reflexivity.
  - vm_compute. reflexivity.
  - vm_compute. reflexivity.
  - vm_compute. discriminate.
  - vm_compute. reflexivity.
  - vm_compute. reflexivity.
Qed.

End ClampClaims.

(* ================================================================= *)
(** ** Editing a field *)

Section FieldUpdates.
Import JSString Form Spec.

Lemma get_set_same (p : SolarParameters) key value :
  get (set p key value) key = value.
Proof. destruct key; reflexivity. Qed.

Lemma get_set_other (p : SolarParameters) key key' value :
  key <> key' -> get (set p key value) key' = get p key'.
Proof. intros H. destruct key, key'; try reflexivity; congruence. Qed.

Lemma set_get (p : SolarParameters) key : set p key (get p key) = p.
Proof. destruct p, key; reflexivity. Qed.

Lemma set_set (p : SolarParameters) key v w :
  set (set p key v) key w = set p key w.
Proof. destruct key; reflexivity. Qed.

Lemma set_comm (p : SolarParameters) key key' v w :
  key <> key' ->
  set (set p key v) key' w = set (set p key' w) key v.
Proof. intros H. destruct key, key'; try reflexivity; congruence. Qed.

Lemma key_eqb_eq (a b : ParamKey) : Handlers.key_eqb a b = true <-> a = b.
Proof.
  unfold Handlers.key_eqb. rewrite String.eqb_eq.
  split; [|intros ->; reflexivity].
  destruct a, b; intros H; try reflexivity; discriminate.
Qed.

Lemma key_eqb_refl (a : ParamKey) : Handlers.key_eqb a a = true.
Proof. apply key_eqb_eq. reflexivity. Qed.

Lemma key_eqb_neq (a b : ParamKey) : a <> b -> Handlers.key_eqb a b = false.
Proof.
  intros H. destruct (Handlers.key_eqb a b) eqn:E; [|reflexivity].
  apply key_eqb_eq in E. contradiction.
Qed.

Lemma read_assign_same (errors : Handlers.ErrorsObject) key v :
  Handlers.read (Handlers.assign errors key v) key = v.
Proof.
  induction errors as [|[k x] rest IH]; simpl.
  - rewrite key_eqb_refl. reflexivity.
  - destruct (Handlers.key_eqb k key) eqn:E; simpl; rewrite E.
    + reflexivity.
    + exact IH.
Qed.

Lemma read_assign_other (errors : Handlers.ErrorsObject) key key' v :
  key <> key' ->
  Handlers.read (Handlers.assign errors key v) key'
  = Handlers.read errors key'.
Proof.
  intros H. induction errors as [|[k x] rest IH]; simpl.
  - rewrite key_eqb_neq by exact H. reflexivity.
  - destruct (Handlers.key_eqb k key) eqn:E; simpl.
    + apply key_eqb_eq in E. subst k.
      rewrite key_eqb_neq by exact H. reflexivity.
    + destruct (Handlers.key_eqb k key'); [reflexivity|exact IH].
Qed.

Lemma or_undefined_validate key value :
  Handlers.or_undefined (validateParameter key value)
  = validateParameter key value.
Proof.
  unfold Handlers.or_undefined.
  destruct (validateParameter key value) as [e|] eqn:E; [|reflexivity].
  rewrite (validateParameter_truthy _ _ _ E). reflexivity.
Qed.

Lemma NoDup_Object_keys : NoDup Object_keys.
Proof.
  unfold Object_keys.
  repeat (apply NoDup_cons; [simpl; intuition discriminate|]).
  apply NoDup_nil.
Qed.

Lemma read_rejected_absent (p : SolarParameters) (keys : list ParamKey) key :
  ~ In key keys ->
  Handlers.read
    (Handlers.of_messages
       (flat_map
          (fun k => match validateParameter k (get p k) with
                    | Some e => [(k, e)]
                    | None => []
                    end) keys)) key = None.
Proof.
  induction keys as [|k ks IH]; intros Hn; simpl; [reflexivity|].
  assert (k <> key) as Hk by (intros ->; apply Hn; left; reflexivity).
  assert (~ In key ks) as Hks by (intros C; apply Hn; right; exact C).
  destruct (validateParameter k (get p k)) as [e|]; simpl.
  - rewrite key_eqb_neq by exact Hk. apply IH, Hks.
  - apply IH, Hks.
Qed.

Lemma read_rejected_present (p : SolarParameters) (keys : list ParamKey) key :
  NoDup keys -> In key keys ->
  Handlers.read
    (Handlers.of_messages
       (flat_map
          (fun k => match validateParameter k (get p k) with
                    | Some e => [(k, e)]
                    | None => []
                    end) keys)) key
  = validateParameter key (get p key).
Proof.
  induction keys as [|k ks IH]; intros Hnd Hin; [destruct Hin|].
  inversion Hnd as [|? ? Hk Hnd']; subst. simpl.
  destruct Hin as [->|Hin].
  - destruct (validateParameter key (get p key)) as [e|] eqn:E; simpl.
    + rewrite key_eqb_refl. reflexivity.
    + apply read_rejected_absent. exact Hk.
  - assert (k <> key) as Hne by (intros ->; contradiction).
    destruct (validateParameter k (get p k)) as [e|]; simpl.
    + rewrite key_eqb_neq by exact Hne. apply IH; assumption.
    + apply IH; assumption.
Qed.

Lemma read_rejections (p : SolarParameters) key :
  Handlers.read (Handlers.of_messages (rejections p)) key
  = validateParameter key (get p key).
Proof.
  apply read_rejected_present; [apply NoDup_Object_keys|apply all_keys].
Qed.

(** X2. [handleInputChange] touches one field: afterwards the field holds
    the typed text and the message under it is what [validateParameter]
    says of that text; every other field keeps its content and its message,
    and the result on display and the loading flag are as before. *)
Theorem handleInputChange_touches_one_field
  (R : Type) (key other : ParamKey) (value : jsstring)
  (s : Handlers.State R) :
  let s' := Handlers.handleInputChange R key value s in
  get (Handlers.parameters R s') key = value
  /\ Handlers.read (Handlers.errors R s') key = validateParameter key value
  /\ (other <> key ->
      get (Handlers.parameters R s') other
      = get (Handlers.parameters R s) other
      /\ Handlers.read (Handlers.errors R s') other
         = Handlers.read (Handlers.errors R s) other)
  /\ Handlers.result R s' = Handlers.result R s
  /\ Handlers.isLoading R s' = Handlers.isLoading R s.
Proof.
  cbv zeta. unfold Handlers.handleInputChange. cbn [Handlers.parameters
    Handlers.errors Handlers.result Handlers.isLoading].
  split; [apply get_set_same|].
  split; [rewrite read_assign_same; apply or_undefined_validate|].
  split; [|split; reflexivity].
  intros Hne. split.
  - apply get_set_other. congruence.
  - apply read_assign_other. congruence.
Qed.

End FieldUpdates.

(* ================================================================= *)
(** ** White space around an entry *)

Section WhiteSpace.
Import JSString Form Spec.

Ltac split_pos p := destruct p as [p|p|]; try reflexivity; try congruence.

Lemma ws_differs (c w : N) :
  isWhiteSpace c = false -> isWhiteSpace w = true -> w <> c.
Proof. intros Hc Hw E. subst w. congruence. Qed.

Lemma ws_not_digit (w : N) : isWhiteSpace w = true -> isDigit w = false.
Proof.
  intros Hw. destruct (isDigit w) eqn:Hd; [|reflexivity].
  unfold isDigit in Hd. apply andb_true_iff in Hd as [H1 H2].
  apply N.leb_le in H1, H2.
  assert (w = 48 \/ w = 49 \/ w = 50 \/ w = 51 \/ w = 52 \/ w = 53
          \/ w = 54 \/ w = 55 \/ w = 56 \/ w = 57)%N as C by lia.
  repeat (destruct C as [C|C]; [subst w; discriminate|]).
  subst w; discriminate.
Qed.

Lemma read_sign_cons (c : N) (r : jsstring) :
  read_sign (c :: r)
  = if N.eqb c 43 then (false, r)
    else if N.eqb c 45 then (true, r) else (false, c :: r).
Proof.
  destruct (N.eqb_spec c 43) as [->|H43]; [reflexivity|].
  destruct (N.eqb_spec c 45) as [->|H45]; [reflexivity|].
  destruct c as [|p]; [reflexivity|].
  split_pos p; split_pos p; split_pos p; split_pos p; split_pos p;
    split_pos p; split_pos p.
Qed.

Lemma match_dot {T : Type} (r1 : jsstring) (A : jsstring -> T) (B : T) :
  match r1 with
  | 46%N :: r => A r
  | _ => B
  end
  = match r1 with
    | c :: r => if N.eqb c 46 then A r else B
    | [] => B
    end.
Proof.
  destruct r1 as [|c r]; [reflexivity|].
  destruct (N.eqb_spec c 46) as [->|H46]; [reflexivity|].
  destruct c as [|p]; [reflexivity|].
  split_pos p; split_pos p; split_pos p; split_pos p; split_pos p;
    split_pos p; split_pos p.
Qed.

Lemma trimStart_app_blank (l s : jsstring) :
  blank l = true -> trimStart (l ++ s) = trimStart s.
Proof.
  unfold blank. induction l as [|c l IH]; simpl; [reflexivity|].
  destruct (isWhiteSpace c); simpl; [exact IH|discriminate].
Qed.

Lemma trimStart_snoc (s : jsstring) (w : N) :
  isWhiteSpace w = true ->
  trimStart (s ++ [w])
  = match trimStart s with
    | [] => []
    | t => t ++ [w]
    end.
Proof.
  intros Hw. induction s as [|c r IH]; simpl.
  - rewrite Hw. reflexivity.
  - destruct (isWhiteSpace c); [exact IH|reflexivity].
Qed.

Lemma read_sign_snoc (t : jsstring) (w : N) :
  w <> 43%N -> w <> 45%N ->
  read_sign (t ++ [w]) = (fst (read_sign t), snd (read_sign t) ++ [w]).
Proof.
  intros H43 H45. destruct t as [|c r].
  - simpl app. rewrite read_sign_cons.
    destruct (N.eqb_spec w 43); [contradiction|].
    destruct (N.eqb_spec w 45); [contradiction|]. reflexivity.
  - change ((c :: r) ++ [w]) with (c :: (r ++ [w])).
    pose proof (read_sign_cons c r) as E1.
    pose proof (read_sign_cons c (r ++ [w])) as E2.
    rewrite E1, E2.
    destruct (N.eqb c 43); [reflexivity|].
    destruct (N.eqb c 45); reflexivity.
Qed.

Lemma starts_with_snoc (p t : jsstring) (w : N) :
  ~ In w p -> starts_with p (t ++ [w]) = starts_with p t.
Proof.
  revert t. induction p as [|a p IH]; intros t Hn; [destruct t; reflexivity|].
  assert (a <> w) as Ha by (intros ->; apply Hn; left; reflexivity).
  assert (~ In w p) as Hp by (intros C; apply Hn; right; exact C).
  destruct t as [|b t]; simpl.
  - destruct (N.eqb_spec a w); [contradiction|]. reflexivity.
  - rewrite IH by exact Hp. reflexivity.
Qed.

Lemma span_digits_snoc (t : jsstring) (w : N) :
  isDigit w = false ->
  span_digits (t ++ [w])
  = (fst (span_digits t), snd (span_digits t) ++ [w]).
Proof.
  intros Hw. induction t as [|c r IH]; simpl.
  - rewrite Hw. reflexivity.
  - destruct (isDigit c); [|reflexivity].
    rewrite IH. destruct (span_digits r) as [ds rest]. reflexivity.
Qed.

Lemma read_exponent_snoc (t : jsstring) (w : N) :
  isWhiteSpace w = true -> read_exponent (t ++ [w]) = read_exponent t.
Proof.
  intros Hw.
  pose proof (ws_not_digit w Hw) as Hd.
  pose proof (ws_differs 43 w eq_refl Hw) as H43.
  pose proof (ws_differs 45 w eq_refl Hw) as H45.
  pose proof (ws_differs 101 w eq_refl Hw) as H101.
  pose proof (ws_differs 69 w eq_refl Hw) as H69.
  destruct t as [|c r]; simpl.
  - destruct (N.eqb_spec w 101); [contradiction|].
    destruct (N.eqb_spec w 69); [contradiction|]. reflexivity.
  - destruct (N.eqb c 101 || N.eqb c 69)%bool; [|reflexivity].
    rewrite (read_sign_snoc r w H43 H45).
    destruct (read_sign r) as [neg r']. cbn [fst snd].
    rewrite (span_digits_snoc r' w Hd).
    destruct (span_digits r') as [ds rest]. cbn [fst snd].
    destruct ds; reflexivity.
Qed.

Lemma ws_not_in_Infinity (w : N) :
  isWhiteSpace w = true -> ~ In w (str "Infinity").
Proof.
  intros Hw C. simpl in C.
  repeat (destruct C as [C|C]; [subst w; discriminate|]).
  exact C.
Qed.

Lemma parseFloat_snoc (s : jsstring) (w : N) :
  isWhiteSpace w = true -> parseFloat (s ++ [w]) = parseFloat s.
Proof.
  intros Hw.
  pose proof (ws_not_digit w Hw) as Hd.
  pose proof (ws_differs 43 w eq_refl Hw) as H43.
  pose proof (ws_differs 45 w eq_refl Hw) as H45.
  pose proof (ws_differs 46 w eq_refl Hw) as H46.
  unfold parseFloat. rewrite (trimStart_snoc s w Hw).
  destruct (trimStart s) as [|c t0] eqn:Et; [reflexivity|].
  rewrite (read_sign_snoc (c :: t0) w H43 H45).
  destruct (read_sign (c :: t0)) as [neg t]. cbn [fst snd].
  rewrite (starts_with_snoc _ t w (ws_not_in_Infinity w Hw)).
  destruct (starts_with (str "Infinity") t); [reflexivity|].
  rewrite (span_digits_snoc t w Hd).
  destruct (span_digits t) as [ip r1]. cbn [fst snd].
  rewrite (match_dot (r1 ++ [w]) span_digits (@pair (list N) jsstring [] (r1 ++ [w]))).
  rewrite (match_dot r1 span_digits (@pair (list N) jsstring [] r1)).
  assert (match r1 ++ [w] with
          | c0 :: r => if N.eqb c0 46 then span_digits r else (@pair (list N) jsstring [] (r1 ++ [w]))
          | [] => (@pair (list N) jsstring [] (r1 ++ [w]))
          end
          = (fst match r1 with
                 | c0 :: r => if N.eqb c0 46 then span_digits r else (@pair (list N) jsstring [] r1)
                 | [] => (@pair (list N) jsstring [] r1)
                 end,
             snd match r1 with
                 | c0 :: r => if N.eqb c0 46 then span_digits r else (@pair (list N) jsstring [] r1)
                 | [] => (@pair (list N) jsstring [] r1)
                 end ++ [w])) as E.
  { destruct r1 as [|c0 r]; simpl app.
    - apply N.eqb_neq in H46. cbv iota beta. rewrite H46. reflexivity.
    - cbv iota beta. destruct (N.eqb c0 46); [|reflexivity].
      apply span_digits_snoc. exact Hd. }
  rewrite E.
  destruct (match r1 with
            | c0 :: r => if N.eqb c0 46 then span_digits r else (@pair (list N) jsstring [] r1)
            | [] => (@pair (list N) jsstring [] r1)
            end) as [fp r2]. cbn [fst snd].
  rewrite (read_exponent_snoc r2 w Hw). reflexivity.
Qed.

Lemma parseFloat_app_blank_r (s r : jsstring) :
  blank r = true -> parseFloat (s ++ r) = parseFloat s.
Proof.
  unfold blank. revert s. induction r as [|w r IH]; intros s H.
  - rewrite app_nil_r. reflexivity.
  - simpl in H. apply andb_true_iff in H as [Hw Hr].
    change (s ++ w :: r) with (s ++ [w] ++ r). rewrite app_assoc.
    rewrite IH by exact Hr. apply parseFloat_snoc. exact Hw.
Qed.

Lemma parseFloat_app_blank_l (l s : jsstring) :
  blank l = true -> parseFloat (l ++ s) = parseFloat s.
Proof.
  intros H. unfold parseFloat. rewrite trimStart_app_blank by exact H.
  reflexivity.
Qed.

Lemma parseFloat_padded (l s r : jsstring) :
  blank l = true -> blank r = true ->
  parseFloat (l ++ s ++ r) = parseFloat s.
Proof.
  intros Hl Hr. rewrite parseFloat_app_blank_l by exact Hl.
  apply parseFloat_app_blank_r. exact Hr.
Qed.

Lemma blank_padded (l s r : jsstring) :
  blank l = true -> blank r = true -> blank (l ++ s ++ r) = blank s.
Proof.
  unfold blank. intros Hl Hr. rewrite !forallb_app, Hl, Hr.
  rewrite andb_true_r. reflexivity.
Qed.

Lemma validateParameter_padded key (l s r : jsstring) :
  blank l = true -> blank r = true ->
  validateParameter key (l ++ s ++ r) = validateParameter key s.
Proof.
  intros Hl Hr. rewrite !validateParameter_unfold.
  unfold out_of_range.
  rewrite blank_padded, parseFloat_padded by assumption. reflexivity.
Qed.

Lemma trimStart_split (s : jsstring) :
  exists l, blank l = true /\ s = l ++ trimStart s.
Proof.
  induction s as [|c r (l & Hl & E)]; [exists []; split; reflexivity|].
  simpl. destruct (isWhiteSpace c) eqn:Hc.
  - exists (c :: l). split.
    + unfold blank in *. simpl. rewrite Hc. exact Hl.
    + simpl. f_equal. exact E.
  - exists []. split; reflexivity.
Qed.

Lemma trim_split (s : jsstring) :
  exists l r, blank l = true /\ blank r = true /\ s = l ++ trim s ++ r.
Proof.
  destruct (trimStart_split s) as (l & Hl & El).
  destruct (trimStart_split (rev (trimStart s))) as (l' & Hl' & El').
  exists l, (rev l'). split; [exact Hl|]. split.
  - unfold blank in *. rewrite forallb_rev. exact Hl'.
  - unfold trim. rewrite <- rev_app_distr, <- El', rev_involutive.
    exact El.
Qed.

(** X3. White space around the entries changes nothing: when every field
    of [q] is the same field of [p] between two runs of white space,
    [validateParameter] rejects the same fields of [p] and of [q] with the
    same messages, and [handleSubmit] computes the same average from
    both. *)
Theorem padding_is_ignored (p q : SolarParameters) :
  (forall key, exists l r,
      blank l = true /\ blank r = true
      /\ get q key = l ++ get p key ++ r) ->
  rejections q = rejections p /\ avgValue q = avgValue p.
Proof.
  intros H.
  assert (forall key,
             validateParameter key (get q key)
             = validateParameter key (get p key)) as Hv.
  { intros key. destruct (H key) as (l & r & Hl & Hr & E). rewrite E.
    apply validateParameter_padded; assumption. }
  assert (forall key,
             parseFloat (get q key) = parseFloat (get p key)) as Hp.
  { intros key. destruct (H key) as (l & r & Hl & Hr & E). rewrite E.
    apply parseFloat_padded; assumption. }
  split.
  - unfold rejections, Object_keys. cbn [flat_map]. rewrite !Hv.
    reflexivity.
  - assert (values q = values p) as E.
    { unfold values, Object_values. rewrite !map_map.
      apply map_ext. intros key. rewrite Hp. reflexivity. }
    unfold avgValue. rewrite E. reflexivity.
Qed.

Lemma padding_is_ignored_witness :
  rejections (set sampleData kEPSZ ([32%N; 9%N] ++ str "250" ++ [32%N]))
  = rejections (set sampleData kEPSZ (str "250"))
  /\ avgValue (set sampleData kEPSZ ([32%N; 9%N] ++ str "250" ++ [32%N]))
     = avgValue (set sampleData kEPSZ (str "250")).
Proof.
  apply (padding_is_ignored
           (set sampleData kEPSZ (str "250"))
           (set sampleData kEPSZ ([32%N; 9%N] ++ str "250" ++ [32%N]))).
  intros key.
  destruct key;
    first [ exists [], []; split; [reflexivity|]; split; reflexivity
          | exists [32%N; 9%N], [32%N];
            split; [reflexivity|]; split; reflexivity ].
Defined.

End WhiteSpace.

(* ================================================================= *)
(** ** A session with a validated component *)

Section SessionInvariants.
Import JSString Form Spec Watch.

Variable R : Type.
Variable mockResponse : JS.number -> R.

Lemma run_invariant (P : Handlers.Session R -> Prop) :
  (forall x ev, P x -> P (Handlers.step R mockResponse x ev)) ->
  forall events x, P x -> P (Handlers.run R mockResponse x events).
Proof.
  intros Hstep events. induction events as [|ev evs IH]; intros x Hx.
  - exact Hx.
  - simpl. apply IH, Hstep, Hx.
Qed.

Lemma run_app x evs evs' :
  Handlers.run R mockResponse x (evs ++ evs')
  = Handlers.run R mockResponse (Handlers.run R mockResponse x evs) evs'.
Proof. apply fold_left_app. Qed.

(** *** Errors and contents *)

Lemma in_sync_handleInputChange key value (s : Handlers.State R) :
  in_sync R s -> in_sync R (Handlers.handleInputChange R key value s).
Proof.
  intros H k. unfold Handlers.handleInputChange.
  cbn [Handlers.errors Handlers.parameters].
  rewrite or_undefined_validate.
  destruct (Handlers.key_eqb key k) eqn:E.
  - apply key_eqb_eq in E. subst k.
    rewrite read_assign_same, get_set_same. reflexivity.
  - assert (key <> k) as Hne.
    { intros C. subst k. rewrite key_eqb_refl in E. discriminate. }
    rewrite read_assign_other, get_set_other by exact Hne. apply H.
Qed.

Lemma in_sync_handleSubmit_start (s : Handlers.State R) :
  in_sync R s -> in_sync R (fst (Handlers.handleSubmit_start R s)).
Proof.
  intros H. unfold Handlers.handleSubmit_start.
  pose proof (validate_all_errors (Handlers.parameters R s)) as He.
  destruct (validate_all (Handlers.parameters R s)) as [errs has].
  cbn [fst] in He. subst errs.
  destruct has; cbn [fst].
  - intros key. cbn [Handlers.errors Handlers.parameters].
    apply read_rejections.
  - exact H.
Qed.

Lemma in_sync_step (x : Handlers.Session R) ev :
  in_sync R (Handlers.ui R x) ->
  in_sync R (Handlers.ui R (Handlers.step R mockResponse x ev)).
Proof.
  intros H. destruct ev; cbn [Handlers.step Handlers.ui].
  - apply in_sync_handleInputChange, H.
  - intros key. symmetry. apply accepted_sampleData.
  - intros key. symmetry. apply accepted_emptyParameters.
  - destruct (Handlers.isLoading R (Handlers.ui R x)); [exact H|].
    pose proof (in_sync_handleSubmit_start _ H) as H'.
    destruct (Handlers.handleSubmit_start R (Handlers.ui R x)) as [s' [c|]];
      exact H'.
  - destruct (Handlers.pending R x) as [|c rest]; [exact H|].
    intros key. apply H.
Qed.

(** *** Loading and pending *)

Lemma handleSubmit_start_cases (s : Handlers.State R) :
  (accepted (Handlers.parameters R s)
   /\ Handlers.handleSubmit_start R s
      = ({| Handlers.parameters := Handlers.parameters R s;
            Handlers.errors := Handlers.errors R s;
            Handlers.result := Handlers.result R s;
            Handlers.isLoading := true |}, Some (Handlers.parameters R s)))
  \/ (~ accepted (Handlers.parameters R s)
      /\ Handlers.handleSubmit_start R s
         = ({| Handlers.parameters := Handlers.parameters R s;
               Handlers.errors :=
                 Handlers.of_messages (rejections (Handlers.parameters R s));
               Handlers.result := Handlers.result R s;
               Handlers.isLoading := Handlers.isLoading R s |}, None)).
Proof.
  unfold Handlers.handleSubmit_start.
  pose proof (validate_all_errors (Handlers.parameters R s)) as He.
  pose proof (validate_all_accepted (Handlers.parameters R s)) as Ha.
  destruct (validate_all (Handlers.parameters R s)) as [errs has].
  cbn [fst snd] in He, Ha. subst errs.
  destruct has.
  - right. split; [|reflexivity]. intros C. apply Ha in C. discriminate.
  - left. split; [|reflexivity]. apply Ha. reflexivity.
Qed.

Lemma one_pending_step (x : Handlers.Session R) ev :
  one_pending_when_loading R x ->
  one_pending_when_loading R (Handlers.step R mockResponse x ev).
Proof.
  unfold one_pending_when_loading.
  intros H. destruct ev; cbn [Handlers.step]; try exact H.
  - destruct H as [[Hp Hl]|(c & Hp & Hl)]; rewrite Hl.
    + destruct (handleSubmit_start_cases (Handlers.ui R x))
        as [[_ ->]|[_ ->]].
      * right. eexists. rewrite Hp. split; reflexivity.
      * left. split; [exact Hp|exact Hl].
    + right. exists c. split; [exact Hp|exact Hl].
  - destruct H as [[Hp Hl]|(c & Hp & Hl)]; rewrite Hp.
    + left. split; [exact Hp|exact Hl].
    + left. split; reflexivity.
Qed.

(** *** Where results come from *)

Lemma from_accepted_step (x : Handlers.Session R) ev :
  from_accepted R mockResponse x ->
  from_accepted R mockResponse (Handlers.step R mockResponse x ev).
Proof.
  unfold from_accepted. intros [Hp Hr].
  destruct ev; cbn [Handlers.step].
  - split; [exact Hp|exact Hr].
  - split; [exact Hp|]. intros r C. discriminate.
  - split; [exact Hp|]. intros r C. discriminate.
  - destruct (Handlers.isLoading R (Handlers.ui R x)) eqn:El;
      [split; assumption|].
    destruct (handleSubmit_start_cases (Handlers.ui R x))
      as [[Ha ->]|[_ ->]]; cbn [Handlers.ui Handlers.pending Handlers.result].
    + split; [|exact Hr]. apply Forall_app. split; [exact Hp|].
      constructor; [exact Ha|constructor].
    + split; assumption.
  - destruct (Handlers.pending R x) as [|c rest] eqn:E;
      [split; [rewrite E; constructor|exact Hr]|].
    inversion Hp as [|? ? Hc Hrest]; subst.
    cbn [Handlers.ui Handlers.pending Handlers.result Handlers.handleSubmit_resume].
    split; [exact Hrest|].
    intros r Er. injection Er as <-. exists c. split; [exact Hc|reflexivity].
Qed.

(** *** What the delay does not change *)

Lemma step_parameters (x : Handlers.Session R) ev :
  Handlers.parameters R (Handlers.ui R (Handlers.step R mockResponse x ev))
  = edited (Handlers.parameters R (Handlers.ui R x)) ev.
Proof.
  destruct ev; cbn [Handlers.step edited]; try reflexivity.
  - destruct (Handlers.isLoading R (Handlers.ui R x)); [reflexivity|].
    destruct (handleSubmit_start_cases (Handlers.ui R x))
      as [[_ ->]|[_ ->]]; reflexivity.
  - destruct (Handlers.pending R x); reflexivity.
Qed.

Lemma run_parameters events : forall x : Handlers.Session R,
  Handlers.parameters R (Handlers.ui R (Handlers.run R mockResponse x events))
  = fold_left edited events (Handlers.parameters R (Handlers.ui R x)).
Proof.
  induction events as [|ev evs IH]; intros x; [reflexivity|].
  simpl. rewrite IH, step_parameters. reflexivity.
Qed.

Lemma waiting_run events : forall (x : Handlers.Session R) captured,
  forallb (fun ev => negb (is_timer ev)) events = true ->
  Handlers.pending R x = [captured] ->
  Handlers.isLoading R (Handlers.ui R x) = true ->
  Handlers.pending R (Handlers.run R mockResponse x events) = [captured]
  /\ Handlers.isLoading R
       (Handlers.ui R (Handlers.run R mockResponse x events)) = true.
Proof.
  induction events as [|ev evs IH]; intros x c Hev Hp Hl; [split; assumption|].
  simpl in Hev. apply andb_true_iff in Hev as [Hne Hev].
  simpl. apply IH; [exact Hev| |].
  - destruct ev; cbn [Handlers.step Handlers.pending]; try exact Hp.
    + rewrite Hl. exact Hp.
    + discriminate.
  - destruct ev; cbn [Handlers.step Handlers.ui]; try exact Hl.
    + rewrite Hl. exact Hl.
    + discriminate.
Qed.

Lemma in_sync_initialState : in_sync R (Handlers.initialState R).
Proof. intros key. symmetry. apply accepted_emptyParameters. Qed.

(** X4. Whatever has been typed, filled in, reset or submitted, the message
    the form holds for a field is what [validateParameter] says of the
    field's present content; so a field is marked as wrong exactly when its
    content is not blank and either is not a number or lies outside the
    field's range. *)
Theorem messages_follow_the_fields
  (events : list Handlers.Event) (key : ParamKey) :
  let s :=
    Handlers.ui R
      (Handlers.run R mockResponse (Handlers.initialSession R) events) in
  let value := get (Handlers.parameters R s) key in
  Handlers.read (Handlers.errors R s) key = validateParameter key value
  /\ Handlers.hasError R s key
     = (negb (blank value)
        && (JS.isNaN (parseFloat value) || out_of_range key value))%bool.
Proof.
  cbv zeta.
  assert (in_sync R
            (Handlers.ui R
               (Handlers.run R mockResponse (Handlers.initialSession R)
                  events))) as H.
  { apply (run_invariant (fun x => in_sync R (Handlers.ui R x))).
    - intros x ev. apply in_sync_step.
    - apply in_sync_initialState. }
  split; [apply H|].
  unfold Handlers.hasError. rewrite (H key), validateParameter_unfold.
  destruct (blank _); [reflexivity|].
  destruct (JS.isNaN _); [reflexivity|].
  destruct (out_of_range _ _); [|reflexivity].
  destruct (parameterInfo key) as [mn mx]. reflexivity.
Qed.

(** X5. The form is loading exactly while one submission waits for its
    timer: no event sequence leaves two submissions waiting, or the form
    loading with none. *)
Theorem at_most_one_submission_waits (events : list Handlers.Event) :
  one_pending_when_loading R
    (Handlers.run R mockResponse (Handlers.initialSession R) events).
Proof.
  apply (run_invariant (one_pending_when_loading R)).
  - intros x ev. apply one_pending_step.
  - left. split; reflexivity.
Qed.

(** X6. A submission is answered from the parameters it was made with.
    When a form that is not loading and whose fields are all accepted is
    submitted, then whatever is typed, filled in or reset while it loads,
    the timer leaves on display the mock response for the average of the
    parameters at the time of the submission, and the form no longer
    loading; the fields themselves hold what the events in between made
    of them. *)
Theorem prediction_uses_the_submitted_parameters
  (before during : list Handlers.Event) :
  let x := Handlers.run R mockResponse (Handlers.initialSession R) before in
  let p := Handlers.parameters R (Handlers.ui R x) in
  Handlers.isLoading R (Handlers.ui R x) = false ->
  accepted p ->
  forallb (fun ev => negb (is_timer ev)) during = true ->
  let y :=
    Handlers.run R mockResponse x
      (Handlers.Submit :: during ++ [Handlers.TimerFires]) in
  Handlers.result R (Handlers.ui R y) = Some (mockResponse (avgValue p))
  /\ Handlers.isLoading R (Handlers.ui R y) = false
  /\ Handlers.pending R y = []
  /\ Handlers.parameters R (Handlers.ui R y) = fold_left edited during p.
Proof.
  cbv zeta.
  set (x := Handlers.run R mockResponse (Handlers.initialSession R) before).
  intros Hl Ha Hd.
  assert (Handlers.pending R x = []) as Hp.
  { assert (one_pending_when_loading R x) as [[H _]|(c & _ & H)].
    { apply (run_invariant (one_pending_when_loading R)).
      - intros x0 ev. apply one_pending_step.
      - left. split; reflexivity. }
    - exact H.
    - congruence. }
  change (Handlers.Submit :: during ++ [Handlers.TimerFires])
    with ([Handlers.Submit] ++ during ++ [Handlers.TimerFires]).
  rewrite !run_app.
  set (x1 := Handlers.run R mockResponse x [Handlers.Submit]).
  assert (Handlers.pending R x1 = [Handlers.parameters R (Handlers.ui R x)]
          /\ Handlers.isLoading R (Handlers.ui R x1) = true
          /\ Handlers.parameters R (Handlers.ui R x1)
             = Handlers.parameters R (Handlers.ui R x)) as (Hp1 & Hl1 & Hq1).
  { subst x1. unfold Handlers.run. cbn [fold_left Handlers.step].
    rewrite Hl.
    destruct (handleSubmit_start_cases (Handlers.ui R x))
      as [[_ E]|[Hn _]]; [|contradiction].
    rewrite E, Hp. cbn. repeat split; reflexivity. }
  destruct (waiting_run during x1 _ Hd Hp1 Hl1) as (Hp2 & Hl2).
  pose proof (run_parameters during x1) as Hq2.
  set (x2 := Handlers.run R mockResponse x1 during) in *.
  unfold Handlers.run at 1 2 3 4. cbn [fold_left Handlers.step].
  rewrite Hp2.
  cbn [Handlers.ui Handlers.pending Handlers.handleSubmit_resume
       Handlers.result Handlers.isLoading Handlers.parameters].
  repeat split; try reflexivity.
  rewrite Hq2, Hq1. reflexivity.
Qed.

End SessionInvariants.

(** While the sample data are being analysed the form is reset: the result
    that appears is still the one for the sample data. *)
Lemma prediction_uses_the_submitted_parameters_witness :
  let y :=
    Handlers.run _ Classification.mockResponse
      (Handlers.initialSession _)
      [Handlers.FillSampleData; Handlers.Submit; Handlers.ResetForm;
       Handlers.TimerFires] in
  Handlers.result _ (Handlers.ui _ y)
  = Some (Classification.mockResponse (Form.avgValue Form.sampleData))
  /\ Handlers.isLoading _ (Handlers.ui _ y) = false
  /\ Handlers.pending _ y = []
  /\ Handlers.parameters _ (Handlers.ui _ y) = Form.emptyParameters.
Proof.
  exact (prediction_uses_the_submitted_parameters
           Classification.PredictionResult Classification.mockResponse
           [Handlers.FillSampleData] [Handlers.ResetForm]
           eq_refl accepted_sampleData eq_refl).
Defined.

(* ================================================================= *)
(** ** A session with the unvalidated component *)

Section UnvalidatedSession.
Import JSString Form Spec Watch.

Lemma run_invariant_U (P : UnvalidatedHandlers.Session -> Prop) :
  (forall x ev, P x -> P (UnvalidatedHandlers.step x ev)) ->
  forall events x, P x -> P (UnvalidatedHandlers.run x events).
Proof.
  intros Hstep events. unfold UnvalidatedHandlers.run.
  induction events as [|ev events IH]; intros x Hx; [exact Hx|].
  simpl. apply IH, Hstep, Hx.
Qed.

Lemma run_app_U x evs evs' :
  UnvalidatedHandlers.run x (evs ++ evs')
  = UnvalidatedHandlers.run (UnvalidatedHandlers.run x evs) evs'.
Proof. unfold UnvalidatedHandlers.run. apply fold_left_app. Qed.

Lemma one_pending_step_U (x : UnvalidatedHandlers.Session) ev :
  one_pending_when_loading_U x ->
  one_pending_when_loading_U (UnvalidatedHandlers.step x ev).
Proof.
  intros H.
  destruct ev as [key value| | | |]; cbn [UnvalidatedHandlers.step].
  - exact H.
  - exact H.
  - exact H.
  - destruct H as [[Hp Hl]|(c & Hp & Hl)].
    + rewrite Hl. cbn. rewrite Hp. right. eexists. split; reflexivity.
    + rewrite Hl. right. exists c. split; assumption.
  - destruct H as [[Hp Hl]|(c & Hp & Hl)].
    + rewrite Hp. left. split; assumption.
    + rewrite Hp. left. split; reflexivity.
Qed.

Lemma step_parameters_U (x : UnvalidatedHandlers.Session) ev :
  Unvalidated.parameters (UnvalidatedHandlers.ui (UnvalidatedHandlers.step x ev))
  = edited_U (Unvalidated.parameters (UnvalidatedHandlers.ui x)) ev.
Proof.
  destruct ev as [key value| | | |]; cbn [UnvalidatedHandlers.step edited_U];
    try reflexivity.
  - destruct (Unvalidated.isLoading (UnvalidatedHandlers.ui x)); reflexivity.
  - destruct (UnvalidatedHandlers.pending x); reflexivity.
Qed.

Lemma run_parameters_U events : forall x : UnvalidatedHandlers.Session,
  Unvalidated.parameters
    (UnvalidatedHandlers.ui (UnvalidatedHandlers.run x events))
  = fold_left edited_U events
      (Unvalidated.parameters (UnvalidatedHandlers.ui x)).
Proof.
  unfold UnvalidatedHandlers.run.
  induction events as [|ev events IH]; intros x; [reflexivity|].
  simpl. rewrite IH, step_parameters_U. reflexivity.
Qed.

Lemma waiting_run_U events :
  forall (x : UnvalidatedHandlers.Session) captured,
  forallb (fun ev => negb (is_timer ev)) events = true ->
  UnvalidatedHandlers.pending x = [captured] ->
  Unvalidated.isLoading (UnvalidatedHandlers.ui x) = true ->
  UnvalidatedHandlers.pending (UnvalidatedHandlers.run x events) = [captured]
  /\ Unvalidated.isLoading
       (UnvalidatedHandlers.ui (UnvalidatedHandlers.run x events)) = true.
Proof.
  unfold UnvalidatedHandlers.run.
  induction events as [|ev events IH]; intros x captured Hd Hp Hl;
    [split; assumption|].
  simpl in Hd. apply andb_true_iff in Hd as [Hev Hd].
  simpl. apply IH; [exact Hd| |].
  - destruct ev as [key value| | | |]; cbn [UnvalidatedHandlers.step];
      try exact Hp; [|discriminate].
    rewrite Hl. exact Hp.
  - destruct ev as [key value| | | |]; cbn [UnvalidatedHandlers.step];
      try exact Hl; [|discriminate].
    rewrite Hl. exact Hl.
Qed.

(** X7. In the unvalidated component too the form is loading exactly while
    one submission waits for its timer, and never two. *)
Theorem unvalidated_at_most_one_submission_waits
  (events : list Handlers.Event) :
  one_pending_when_loading_U
    (UnvalidatedHandlers.run UnvalidatedHandlers.initialSession events).
Proof.
  apply (run_invariant_U one_pending_when_loading_U).
  - intros x ev. apply one_pending_step_U.
  - left. split; reflexivity.
Qed.

(** X8. The unvalidated component answers every submission of a form that
    is not loading, whatever the fields hold: when the timer fires, the
    result on display is the mock response for the average of the
    parameters at the time of the submission, also when fields were
    edited, filled in or reset in between. *)
Theorem unvalidated_prediction_uses_the_submitted_parameters
  (before during : list Handlers.Event) :
  let x :=
    UnvalidatedHandlers.run UnvalidatedHandlers.initialSession before in
  let p := Unvalidated.parameters (UnvalidatedHandlers.ui x) in
  Unvalidated.isLoading (UnvalidatedHandlers.ui x) = false ->
  forallb (fun ev => negb (is_timer ev)) during = true ->
  let y :=
    UnvalidatedHandlers.run x
      (Handlers.Submit :: during ++ [Handlers.TimerFires]) in
  Unvalidated.result (UnvalidatedHandlers.ui y)
  = Some (Unvalidated.mockResponse (avgValue p))
  /\ Unvalidated.isLoading (UnvalidatedHandlers.ui y) = false
  /\ UnvalidatedHandlers.pending y = []
  /\ Unvalidated.parameters (UnvalidatedHandlers.ui y)
     = fold_left edited_U during p.
Proof.
  cbv zeta.
  set (x := UnvalidatedHandlers.run UnvalidatedHandlers.initialSession before).
  intros Hl Hd.
  assert (UnvalidatedHandlers.pending x = []) as Hp.
  { assert (one_pending_when_loading_U x) as [[H _]|(c & _ & H)].
    { apply (run_invariant_U one_pending_when_loading_U).
      - intros x0 ev. apply one_pending_step_U.
      - left. split; reflexivity. }
    - exact H.
    - congruence. }
  change (Handlers.Submit :: during ++ [Handlers.TimerFires])
    with ([Handlers.Submit] ++ during ++ [Handlers.TimerFires]).
  rewrite !run_app_U.
  set (x1 := UnvalidatedHandlers.run x [Handlers.Submit]).
  assert (UnvalidatedHandlers.pending x1
          = [Unvalidated.parameters (UnvalidatedHandlers.ui x)]
          /\ Unvalidated.isLoading (UnvalidatedHandlers.ui x1) = true
          /\ Unvalidated.parameters (UnvalidatedHandlers.ui x1)
             = Unvalidated.parameters (UnvalidatedHandlers.ui x))
    as (Hp1 & Hl1 & Hq1).
  { subst x1. unfold UnvalidatedHandlers.run.
    cbn [fold_left UnvalidatedHandlers.step].
    rewrite Hl. cbn. rewrite Hp. repeat split; reflexivity. }
  destruct (waiting_run_U during x1 _ Hd Hp1 Hl1) as (Hp2 & Hl2).
  pose proof (run_parameters_U during x1) as Hq2.
  set (x2 := UnvalidatedHandlers.run x1 during) in *.
  unfold UnvalidatedHandlers.run at 1 2 3 4.
  cbn [fold_left UnvalidatedHandlers.step].
  rewrite Hp2.
  cbn [UnvalidatedHandlers.ui UnvalidatedHandlers.pending
       Unvalidated.handleSubmit_resume Unvalidated.result
       Unvalidated.isLoading Unvalidated.parameters].
  repeat split; try reflexivity.
  rewrite Hq2, Hq1. reflexivity.
Qed.

(** The sample data are filled in, a field is overwritten with text that
    is no number, the form is submitted and the field corrected while the
    form loads: the result is the one for the field as submitted. *)
Lemma unvalidated_prediction_uses_the_submitted_parameters_witness :
  let y :=
    UnvalidatedHandlers.run UnvalidatedHandlers.initialSession
      [Handlers.FillSampleData; Handlers.InputChange kEPSZ (str "abc");
       Handlers.Submit; Handlers.InputChange kEPSZ (str "50");
       Handlers.TimerFires] in
  Unvalidated.result (UnvalidatedHandlers.ui y)
  = Some (Unvalidated.mockResponse
            (avgValue (set Unvalidated.sampleData kEPSZ (str "abc"))))
  /\ Unvalidated.isLoading (UnvalidatedHandlers.ui y) = false
  /\ UnvalidatedHandlers.pending y = []
  /\ Unvalidated.parameters (UnvalidatedHandlers.ui y)
     = set Unvalidated.sampleData kEPSZ (str "50").
Proof.
  exact (unvalidated_prediction_uses_the_submitted_parameters
           [Handlers.FillSampleData; Handlers.InputChange kEPSZ (str "abc")]
           [Handlers.InputChange kEPSZ (str "50")]
           eq_refl eq_refl).
Defined.

End UnvalidatedSession.

(* ================================================================= *)
(** ** The result cards *)

Section ResultCards.
Import JSString Form Spec Watch.

Local Abbreviation fexp := (SpecFloat.fexp JS.prec JS.emax).

Ltac eval_pow2 :=
  repeat match goal with
    | |- context [2 ^ ?k] =>
        let c := eval vm_compute in (2 ^ k) in
        progress change (2 ^ k) with c
    | H : context [2 ^ ?k] |- _ =>
        let c := eval vm_compute in (2 ^ k) in
        progress change (2 ^ k) with c in H
    end.

Ltac eval_rhs H :=
  match type of H with
  | _ = ?rhs => let c := eval vm_compute in rhs in change rhs with c in H
  end.

Ltac exponent_in_range :=
  match goal with
  | |- context [Z.leb ?a (JS.emax - JS.prec)] =>
      change (Z.leb a (JS.emax - JS.prec)) with true; cbv iota
  end.

Lemma in_range_confidence_finite (c : JS.number) :
  valid_binary JS.prec JS.emax c = true ->
  in_range (JS.of_decimal false 4 (-1)) (JS.of_decimal false 98 (-2)) c
  = true ->
  exists m e,
    c = S754_finite false m e
    /\ bounded JS.prec JS.emax m e = true
    /\ -54 <= e <= -53
    /\ 4503599627370496 <= Zpos m < 9007199254740992
    /\ (e = -54 -> 7205759403792794 <= Zpos m)
    /\ (e = -53 -> Zpos m <= 8827055269646172).
Proof.
  intros Hv Hr. unfold in_range, JS.leb in Hr.
  apply andb_true_iff in Hr as [Hlo Hhi].
  change (JS.of_decimal false 4 (-1))
    with (S754_finite false 7205759403792794 (-54)) in Hlo.
  change (JS.of_decimal false 98 (-2))
    with (S754_finite false 8827055269646172 (-53)) in Hhi.
  destruct c as [[|]|[|]| |[|] m e]; try discriminate.
  apply SFleb_finite in Hlo. apply SFleb_finite in Hhi.
  cbn [valid_binary] in Hv.
  exists m, e.
  pose proof (bounded_digits m e Hv) as (Hcan & _ & Hd).
  rewrite fexp_unfold in Hcan.
  assert (Zpos (digits2_pos m) = 53) as E53 by lia.
  pose proof (Zdigits2_bounds (Zpos m) ltac:(lia)) as Hb.
  cbn [Zdigits2] in Hb. rewrite E53 in Hb.
  change (2 ^ (53 - 1)) with 4503599627370496 in Hb.
  change (2 ^ 53) with 9007199254740992 in Hb.
  refine (conj eq_refl (conj Hv (conj _ (conj Hb (conj _ _))))); lia.
Qed.

Lemma round_confidence_100 (m : positive) (e : Z) :
  bounded JS.prec JS.emax m e = true ->
  -54 <= e <= -53 ->
  4503599627370496 <= Zpos m < 9007199254740992 ->
  (e = -54 -> 7205759403792794 <= Zpos m) ->
  (e = -53 -> Zpos m <= 8827055269646172) ->
  exists n,
    40 <= n <= 98
    /\ JS.Math_round (JS.mul (S754_finite false m e) (JS.of_Z 100))
       = JS.of_Z n.
Proof.
  intros Hb He Hm Hlo Hhi.
  change (JS.of_Z 100) with (S754_finite false 7036874417766400 (-46)).
  unfold JS.mul, SFmul. cbn [xorb].
  assert (bounded JS.prec JS.emax 7036874417766400 (-46) = true) as Hb100
    by reflexivity.
  pose proof (mul_round_hyp m 7036874417766400 e (-46) Hb Hb100) as Hhyp.
  destruct (binary_round_aux_spec false (Zpos (m * 7036874417766400))
              (e + -46) loc_Exact ltac:(lia) Hhyp)
    as (m1 & e1 & m2 & m3 & e3 & He1 & Hm1 & Hm2 & He3 & _ & Hm3 & Hm3n
        & _ & ->).
  clear Hhyp Hb Hb100.
  rewrite Pos2Z.inj_mul in *.
  remember (Zpos m * 7036874417766400) as P eqn:EP.
  assert (0 < P) as HP by lia.
  pose proof (Zdigits2_bounds P HP) as HdP.
  remember (Zdigits2 P) as dP eqn:EdP. clear EdP.
  assert (dP = 105 \/ dP = 106) as HdPc.
  { assert (2 ^ 104 <= P < 2 ^ 106) as HPb.
    { change (2 ^ 104) with 20282409603651670423947251286016.
      change (2 ^ 106) with 81129638414606681695789005144064. lia. }
    destruct (Z_le_gt_dec dP 104) as [Hl|Hl].
    { assert (2 ^ dP <= 2 ^ 104) by (apply Z.pow_le_mono_r; lia). lia. }
    destruct (Z_le_gt_dec 107 dP) as [Hg|Hg].
    { assert (2 ^ 106 <= 2 ^ (dP - 1)) by (apply Z.pow_le_mono_r; lia). lia. }
    lia. }
  rewrite fexp_unfold in He1.
  assert (e = -54 \/ e = -53) as Hec by lia.
  clear He.
  destruct Hec as [-> | ->]; destruct HdPc as [-> | ->];
    eval_rhs He1; subst e1;
    rewrite Z.shiftr_div_pow2 in Hm1 by lia;
    eval_pow2;
    (assert (4503599627370496 <= m1 < 9007199254740992) as Hm1b
      by (subst m1; Z.div_mod_to_equations; lia));
    (destruct (Z_lt_ge_dec m2 9007199254740992) as [Hc|Hc];
     [ assert (Zdigits2 m2 = 53) as Ed
         by (apply Zdigits2_unique; [eval_pow2; lia|lia])
     | assert (Zdigits2 m2 = 54) as Ed
         by (apply Zdigits2_unique; [eval_pow2; lia|lia]) ]);
    rewrite Ed, fexp_unfold in He3; eval_rhs He3; subst e3;
    rewrite Z.shiftr_div_pow2 in Hm3 by lia; eval_pow2;
    (destruct m3 as [|p3|p3];
     [ exfalso; Z.div_mod_to_equations; lia | | exfalso; lia ]);
    exponent_in_range;
    rewrite Math_round_pos;
    (eexists; split; [|reflexivity]);
    rewrite Z.shiftr_div_pow2 by lia; eval_pow2;
    Z.div_mod_to_equations; lia.
Qed.

Lemma confidencePercent_whole (avg : JS.number) :
  JS.isNaN avg = false ->
  exists n,
    40 <= n <= 98
    /\ Render.confidencePercent (Classification.mockResponse avg) = JS.of_Z n.
Proof.
  intros Hn. unfold Render.confidencePercent. rewrite confidence_unfold.
  destruct (in_range_confidence_finite _ (confidence_valid avg)
              (confidence_in_range avg Hn))
    as (m & e & -> & Hb & He & Hm & Hlo & Hhi).
  apply round_confidence_100; assumption.
Qed.

Lemma strokeDash_within (n : Z) :
  500 <= n <= 9500 ->
  in_range (JS.of_Z 14) (JS.of_Z 269)
    (Render.strokeDash (JS.div (JS.of_Z n) (JS.of_Z 100))) = true.
Proof.
  intros H.
  apply (holds_from_spec
           (fun n => in_range (JS.of_Z 14) (JS.of_Z 269)
                       (Render.strokeDash (JS.div (JS.of_Z n) (JS.of_Z 100))))
           (Z.to_nat 9001) 500).
  - vm_compute. reflexivity.
  - rewrite Z2Nat.id by lia. lia.
Qed.

Lemma red_indicators_agree (avg : JS.number) :
  Render.redByPrediction (Classification.mockResponse avg)
  = Render.redByClass (Classification.mockResponse avg).
Proof.
  unfold Render.redByPrediction, Render.redByClass,
    Classification.mockResponse.
  cbn [Classification.binary_prediction Classification.final_class].
  destruct (Classification.strict_eq _ "M" || Classification.strict_eq _ "X")%bool;
    reflexivity.
Qed.

Lemma shown_result_from_accepted
  (R : Type) (mockResponse : JS.number -> R)
  (events : list Handlers.Event) (r : R) :
  Handlers.result R
    (Handlers.ui R
       (Handlers.run R mockResponse (Handlers.initialSession R) events))
  = Some r ->
  exists p, accepted p /\ r = mockResponse (avgValue p).
Proof.
  assert (from_accepted R mockResponse
            (Handlers.run R mockResponse (Handlers.initialSession R) events))
    as [_ H].
  { apply (run_invariant R mockResponse (from_accepted R mockResponse)).
    - intros x ev. apply from_accepted_step.
    - split; [constructor|]. intros r0 H0. discriminate H0. }
  apply H.
Qed.

Lemma finalClassLabel_accepted (avg : JS.number) :
  nonneg avg = true ->
  In (Render.finalClassLabel (Classification.mockResponse avg))
    ["B Class"; "C Class"; "M Class"; "X Class"; "B / C Class"]%string.
Proof.
  intros Hn. unfold Render.finalClassLabel. rewrite final_class_unfold.
  destruct (classIndex_spec avg Hn) as [E Hz]. rewrite E.
  destruct (mockClasses_lookup _ Hz) as (_ & E' & _). rewrite E'.
  assert (class_index avg = 0 \/ class_index avg = 1 \/ class_index avg = 2
          \/ class_index avg = 3 \/ class_index avg = 4) as C by lia.
  destruct C as [C|[C|[C|[C|C]]]]; rewrite C; cbn; tauto.
Qed.

(** X9. The classification card of any result the form can show: the class
    line reads one of [B Class], [C Class], [M Class], [X Class] and
    [B / C Class]; the confidence is shown as a whole number of percent
    between 40 and 98, which is also the width of the bar; and the card is
    red by its prediction exactly when it is red by its class. *)
Theorem classification_card_is_well_formed
  (events : list Handlers.Event) (r : Classification.PredictionResult) :
  Handlers.result _
    (Handlers.ui _
       (Handlers.run _ Classification.mockResponse
          (Handlers.initialSession _) events))
  = Some r ->
  In (Render.finalClassLabel r)
    ["B Class"; "C Class"; "M Class"; "X Class"; "B / C Class"]%string
  /\ (exists n, 40 <= n <= 98 /\ Render.confidencePercent r = JS.of_Z n)
  /\ Render.redByPrediction r = Render.redByClass r.
Proof.
  intros H.
  destruct (shown_result_from_accepted _ _ _ _ H) as (p & Ha & ->).
  pose proof (accepted_avg_nonneg p Ha) as Hn.
  split; [apply finalClassLabel_accepted; exact Hn|].
  split; [apply confidencePercent_whole, nonneg_not_NaN; exact Hn|].
  apply red_indicators_agree.
Qed.

Lemma classification_card_is_well_formed_witness :
  let r := Classification.mockResponse (avgValue sampleData) in
  In (Render.finalClassLabel r)
    ["B Class"; "C Class"; "M Class"; "X Class"; "B / C Class"]%string
  /\ (exists n, 40 <= n <= 98 /\ Render.confidencePercent r = JS.of_Z n)
  /\ Render.redByPrediction r = Render.redByClass r.
Proof.
  exact (classification_card_is_well_formed
           [Handlers.FillSampleData; Handlers.Submit; Handlers.TimerFires]
           (Classification.mockResponse (avgValue sampleData)) eq_refl).
Defined.

(** X10. The probability card of any result the validated form can show:
    the probability is a whole number of hundredths between 5 and 95, the
    risk level and the message are the ones of that probability, and the
    dash of the gauge, [probability * 2.83], lies between 14 and 269, within
    the circle of 283. *)
Theorem probability_card_is_well_formed
  (events : list Handlers.Event) (r : Probability.PredictionResult) :
  Handlers.result _
    (Handlers.ui _
       (Handlers.run _ Probability.mockResponse
          (Handlers.initialSession _) events))
  = Some r ->
  (exists n,
      500 <= n <= 9500
      /\ Probability.probability r = JS.div (JS.of_Z n) (JS.of_Z 100))
  /\ in_range (JS.of_Z 5) (JS.of_Z 95) (Probability.probability r) = true
  /\ Probability.riskLevel r = risk_of (Probability.probability r)
  /\ Probability.message r = message_of (Probability.riskLevel r)
  /\ in_range (JS.of_Z 14) (JS.of_Z 269)
       (Render.strokeDash (Probability.probability r)) = true.
Proof.
  intros H.
  destruct (shown_result_from_accepted _ _ _ _ H) as (p & Ha & ->).
  pose proof (nonneg_not_NaN _ (accepted_avg_nonneg p Ha)) as Hn.
  rewrite Probability_mockResponse_unfold.
  cbn [Probability.probability Probability.riskLevel Probability.message].
  destruct (probability_hundredths _ Hn) as (n & Hr & E).
  split; [exists n; split; assumption|].
  split; [apply probability_in_range; exact Hn|].
  split; [reflexivity|]. split; [reflexivity|].
  rewrite E. apply strokeDash_within. exact Hr.
Qed.

Lemma probability_card_is_well_formed_witness :
  let r := Probability.mockResponse (avgValue sampleData) in
  (exists n,
      500 <= n <= 9500
      /\ Probability.probability r = JS.div (JS.of_Z n) (JS.of_Z 100))
  /\ in_range (JS.of_Z 5) (JS.of_Z 95) (Probability.probability r) = true
  /\ Probability.riskLevel r = risk_of (Probability.probability r)
  /\ Probability.message r = message_of (Probability.riskLevel r)
  /\ in_range (JS.of_Z 14) (JS.of_Z 269)
       (Render.strokeDash (Probability.probability r)) = true.
Proof.
  exact (probability_card_is_well_formed
           [Handlers.FillSampleData; Handlers.Submit; Handlers.TimerFires]
           (Probability.mockResponse (avgValue sampleData)) eq_refl).
Defined.

End ResultCards.
